(** * flashController: the sector-status bookkeeping of flashMemoryController.c

    A shallow embedding of the wear-levelling flash controller: the in-memory
    mirror [fctrStatusBytes] of the map sector, the search for a sector to
    write or to read, the lazy compaction, push/pop and the initialisation
    sequence, followed by the properties of these functions.

    The chip driver (w25qxx.h) is not part of the sources: it is the interface
    [FlashIC] below, and every function of the controller is written over an
    arbitrary implementation of it.  The diagnostic console (debug.h) only
    prints; its calls are left out. *)

From Stdlib Require Import ZArith List Lia Bool.
From stdpp Require Import base list.
Import ListNotations.

Local Open Scope Z_scope.

(** ** Configuration (flashMemoryController.h) *)

Definition FCTR_TOTAL_MEMORYSIZE_BYTES : Z := 4194304 * 2.
Definition FCTR_RESERVED_OFFSET : Z := 1048576.
Definition FCTR_SECTOR_SIZE : Z := 4096.
Definition FCTR_TOTAL_SECTORS : Z := FCTR_TOTAL_MEMORYSIZE_BYTES / FCTR_SECTOR_SIZE.
Definition FCTR_AVAILABLE_SECTORS : Z :=
  FCTR_TOTAL_SECTORS - (FCTR_RESERVED_OFFSET / FCTR_SECTOR_SIZE).
Definition FCTR_SIZE_OF_KILOBYTE : Z := 1024.

Definition SIGNATURE_BYTE : Z := 0x55.
Definition RESET : Z := 0.

(** [fctrStat_t] *)
Inductive fctrStat_t : Type :=
  | FCTRSTAT_OK
  | FCTRSTAT_ERROR.

Definition is_ok (r : fctrStat_t) : bool :=
  match r with FCTRSTAT_OK => true | FCTRSTAT_ERROR => false end.

(** [fctrSectorStat_t], with the byte each enumerator stands for. *)
Inductive fctrSectorStat_t : Type :=
  | FCTR_SECTOR_RESERVED
  | FCTR_SECTOR_EMPTY
  | FCTR_SECTOR_UNREAD
  | FCTR_SECTOR_READ.

Definition stat_byte (c : fctrSectorStat_t) : Z :=
  match c with
  | FCTR_SECTOR_RESERVED => 0xFF
  | FCTR_SECTOR_EMPTY => 0x5F
  | FCTR_SECTOR_UNREAD => 0x5E
  | FCTR_SECTOR_READ => 0x5C
  end.

(** Arithmetic on [uint32_t] and the conversion to [uint8_t]. *)
Definition wrap32 (x : Z) : Z := x mod 2 ^ 32.
Definition to_u8 (x : Z) : Z := x mod 2 ^ 8.

(** ** Arrays of bytes

    A C array of [uint8_t] is a list of integers; [rd] is [a[i]] and [wr] is
    [a[i] = v].  Every index the controller uses is below the length of the
    array; outside it [rd] gives 0 and [wr] changes nothing. *)

Definition rd (a : list Z) (i : Z) : Z := default 0 (a !! Z.to_nat i).
Definition wr (a : list Z) (i : Z) (v : Z) : list Z := <[Z.to_nat i := v]> a.

(** What the memory at a pointer holds after the driver has copied [src] to
    it: [src], then what was there beyond it. *)
Definition blit (src dst : list Z) : list Z := src ++ drop (length src) dst.

(** ** The chip driver

    The calls the controller makes on the W25Qxx driver, over a type [dev] of
    chip states.  Sector numbers and byte addresses are absolute. *)
Class FlashIC (dev : Type) : Type := {
  W25qxx_Init : dev -> bool * dev;
  CapacityInKiloByte : dev -> Z;
  SectorCount : dev -> Z;
  SectorSize : dev -> Z;
  W25qxx_EraseSector : Z -> dev -> dev;
  (* buffer, sector, offset in the sector, number of bytes *)
  W25qxx_WriteSector : list Z -> Z -> Z -> Z -> dev -> dev;
  (* sector, offset in the sector, number of bytes: the bytes delivered *)
  W25qxx_ReadSector : Z -> Z -> Z -> dev -> list Z;
  W25qxx_IsEmptySector : Z -> Z -> Z -> dev -> bool;
  (* byte, address *)
  W25qxx_WriteByte : Z -> Z -> dev -> dev;
  W25qxx_ReadByte : Z -> dev -> Z
}.

(** ** The state of the controller: the global [fctrStatusBytes] and the chip *)

Record fctr_state (dev : Type) : Type := mkState {
  fctrStatusBytes : list Z;
  flash : dev
}.
Arguments mkState {dev} _ _.
Arguments fctrStatusBytes {dev} _.
Arguments flash {dev} _.

(** A small state monad for the C functions. *)
Definition M (dev A : Type) : Type := fctr_state dev -> A * fctr_state dev.

Definition ret {dev A} (a : A) : M dev A := fun s => (a, s).
Definition bind {dev A B} (m : M dev A) (k : A -> M dev B) : M dev B :=
  fun s => let (a, s') := m s in k a s'.

Notation "x <- c1 ;; c2" := (bind c1 (fun x => c2))
  (at level 100, c1 at next level, right associativity).
#[warnings="-notation-incompatible-prefix"]
Notation "' pat <- c1 ;; c2" := (bind c1 (fun x => match x with pat => c2 end))
  (at level 100, pat pattern, c1 at next level, right associativity).
Notation "c1 ;; c2" := (bind c1 (fun _ => c2))
  (at level 100, right associativity).

Definition get_table {dev} : M dev (list Z) := fun s => (fctrStatusBytes s, s).
Definition set_table {dev} (t : list Z) : M dev unit :=
  fun s => (tt, mkState t (flash s)).
Definition ask_chip {dev A} (f : dev -> A) : M dev A := fun s => (f (flash s), s).
Definition on_chip {dev} (f : dev -> dev) : M dev unit :=
  fun s => (tt, mkState (fctrStatusBytes s) (f (flash s))).

Section Controller.

Context {dev : Type} `{IC : FlashIC dev}.

(** *** Middleware (the [IC_W25Qxx] branch of every function) *)

Definition fctr_initIC : M dev fctrStat_t :=
  fun s =>
    let (ok, d) := W25qxx_Init (flash s) in
    ((if ok then FCTRSTAT_OK else FCTRSTAT_ERROR), mkState (fctrStatusBytes s) d).

(** The three out-parameters are returned next to the status. *)
Definition fctr_getFlashSizes : M dev (fctrStat_t * (Z * Z * Z)) :=
  totalSpaceInKB <- ask_chip CapacityInKiloByte ;;
  totalSectors <- ask_chip SectorCount ;;
  sectorSize <- ask_chip SectorSize ;;
  if totalSpaceInKB <? FCTR_SIZE_OF_KILOBYTE
  then ret (FCTRSTAT_ERROR, (totalSpaceInKB, totalSectors, sectorSize))
  else ret (FCTRSTAT_OK, (totalSpaceInKB, totalSectors, sectorSize)).

(** A function that fills a buffer returns what the buffer holds afterwards. *)
Definition fctr_readSectorStatus (sectorStatus : list Z) : M dev (fctrStat_t * list Z) :=
  bytes <- ask_chip (W25qxx_ReadSector (FCTR_RESERVED_OFFSET / FCTR_SECTOR_SIZE) 0
                       FCTR_AVAILABLE_SECTORS) ;;
  ret (FCTRSTAT_OK, blit bytes sectorStatus).

Definition fctr_readSector (pBuffer : list Z) (requestedSector : Z)
  : M dev (fctrStat_t * list Z) :=
  let newSectorAddress := wrap32 (FCTR_RESERVED_OFFSET / FCTR_SECTOR_SIZE + requestedSector) in
  bytes <- ask_chip (W25qxx_ReadSector newSectorAddress 0 FCTR_SECTOR_SIZE) ;;
  ret (FCTRSTAT_OK, blit bytes pBuffer).

Definition fctr_writeSector (pBuffer : list Z) (requestedSector : Z) : M dev fctrStat_t :=
  let newSectorAddress := wrap32 (FCTR_RESERVED_OFFSET / FCTR_SECTOR_SIZE + requestedSector) in
  empty <- ask_chip (W25qxx_IsEmptySector newSectorAddress 0 FCTR_SECTOR_SIZE) ;;
  (if empty : bool
   then on_chip (W25qxx_WriteSector pBuffer newSectorAddress 0 FCTR_SECTOR_SIZE)
   else on_chip (W25qxx_EraseSector newSectorAddress) ;;
        on_chip (W25qxx_WriteSector pBuffer newSectorAddress 0 FCTR_SECTOR_SIZE)) ;;
  ret FCTRSTAT_OK.

Definition fctr_writeSectorStatus (sectorStatus : list Z) : M dev fctrStat_t :=
  on_chip (W25qxx_EraseSector (FCTR_RESERVED_OFFSET / FCTR_SECTOR_SIZE)) ;;
  on_chip (W25qxx_WriteSector sectorStatus (FCTR_RESERVED_OFFSET / FCTR_SECTOR_SIZE) 0
             FCTR_AVAILABLE_SECTORS) ;;
  ret FCTRSTAT_OK.

Definition fctr_eraseSector (sectorToErase : Z) : M dev fctrStat_t :=
  on_chip (W25qxx_EraseSector (wrap32 (FCTR_RESERVED_OFFSET / FCTR_SECTOR_SIZE + sectorToErase))) ;;
  ret FCTRSTAT_OK.

Definition fctr_writeByte (byteToWrite : Z) (requestedAddress : Z) : M dev fctrStat_t :=
  on_chip (W25qxx_WriteByte byteToWrite (wrap32 (FCTR_RESERVED_OFFSET + requestedAddress))) ;;
  testWrittenByte <- ask_chip (W25qxx_ReadByte (wrap32 (FCTR_RESERVED_OFFSET + requestedAddress))) ;;
  if testWrittenByte =? byteToWrite then ret FCTRSTAT_OK else ret FCTRSTAT_ERROR.

(** *** Internal functions *)

Definition fctr_refreshTheMemoryStatus (memStatus : list Z) : M dev (fctrStat_t * list Z) :=
  let memStatus := wr memStatus 0 SIGNATURE_BYTE in
  r <- fctr_writeSectorStatus memStatus ;;
  if is_ok r then ret (FCTRSTAT_OK, memStatus) else ret (FCTRSTAT_ERROR, memStatus).

(** [memset (fctrStatusBytes, FCTR_SECTOR_EMPTY, FCTR_AVAILABLE_SECTORS)] *)
Definition memset (a : list Z) (v : Z) (n : Z) : list Z :=
  blit (replicate (Z.to_nat n) (to_u8 v)) a.

Definition fctr_formatTheMemorySpace : M dev fctrStat_t :=
  t <- get_table ;;
  set_table (memset t (stat_byte FCTR_SECTOR_EMPTY) FCTR_AVAILABLE_SECTORS) ;;
  t <- get_table ;;
  set_table (wr t 0 SIGNATURE_BYTE) ;;
  t <- get_table ;;
  r <- fctr_writeSectorStatus t ;;
  if is_ok r then ret FCTRSTAT_OK else ret FCTRSTAT_ERROR.

Definition fctr_changeSectorStatus (newSectorStat : fctrSectorStat_t)
    (sectorToChangeStatusOf : Z) : M dev fctrStat_t :=
  let byteBuff := to_u8 (stat_byte newSectorStat) in
  r <- fctr_writeByte byteBuff sectorToChangeStatusOf ;;
  let result := if is_ok r then FCTRSTAT_OK else FCTRSTAT_ERROR in
  t <- get_table ;;
  set_table (wr t sectorToChangeStatusOf byteBuff) ;;
  ret result.

(** [for (i = from; i < FCTR_AVAILABLE_SECTORS; i++)
       if (fctrStatusBytes[i] == code) return i;]
    with [n] iterations left; [None] when the loop runs to its end. *)
Fixpoint scan_loop (code : Z) (t : list Z) (i : Z) (n : nat) : option Z :=
  match n with
  | O => None
  | S n' => if rd t i =? code then Some i else scan_loop code t (i + 1) n'
  end.

Definition iterations (from : Z) : nat := Z.to_nat (FCTR_AVAILABLE_SECTORS - from).

(** The out-parameter [*sectorToRead] comes in with its value before the call
    and is returned with its value after it. *)
Definition fctr_findSectorToRead (sectorToRead : Z) : M dev (fctrStat_t * Z) :=
  t <- get_table ;;
  match scan_loop (stat_byte FCTR_SECTOR_UNREAD) t 1 (iterations 1) with
  | Some unreadSector => ret (FCTRSTAT_OK, unreadSector)
  | None => ret (FCTRSTAT_ERROR, sectorToRead)
  end.

(** The loop that sets every entry that is not UNREAD to EMPTY, with the
    table and [foundASector] as its state. *)
Fixpoint reclaim_loop (t : list Z) (foundASector : bool) (i : Z) (n : nat)
  : list Z * bool :=
  match n with
  | O => (t, foundASector)
  | S n' =>
      if negb (rd t i =? stat_byte FCTR_SECTOR_UNREAD)
      then reclaim_loop (wr t i (stat_byte FCTR_SECTOR_EMPTY)) true (i + 1) n'
      else reclaim_loop t foundASector (i + 1) n'
  end.

Definition fctr_findSectorToWrite (sectorToWrite : Z) : M dev (fctrStat_t * Z) :=
  t <- get_table ;;
  match scan_loop (stat_byte FCTR_SECTOR_EMPTY) t 1 (iterations 1) with
  | Some emptySector => ret (FCTRSTAT_OK, emptySector)
  | None =>
      let (t', foundASector) := reclaim_loop t false 1 (iterations 1) in
      set_table t' ;;
      if foundASector then
        t <- get_table ;;
        '(r, t) <- fctr_refreshTheMemoryStatus t ;;
        set_table t ;;
        if negb (is_ok r) then ret (FCTRSTAT_ERROR, sectorToWrite) else
        match scan_loop (stat_byte FCTR_SECTOR_EMPTY) t RESET (iterations RESET) with
        | Some i => ret (FCTRSTAT_OK, i)
        | None => ret (FCTRSTAT_ERROR, sectorToWrite)
        end
      else ret (FCTRSTAT_ERROR, sectorToWrite)
  end.

(** The table after compaction: the reclaiming loop, then the signature that
    [fctr_refreshTheMemoryStatus] puts in entry 0. *)
Definition compacted (t : list Z) : list Z :=
  wr (fst (reclaim_loop t false 1 (iterations 1))) 0 SIGNATURE_BYTE.

(** *** Main functions *)

Definition fctr_pushToFlash (pBuffer : list Z) : M dev fctrStat_t :=
  '(r, sectorToWrite) <- fctr_findSectorToWrite RESET ;;
  if negb (is_ok r) then ret FCTRSTAT_ERROR else
  r <- fctr_writeSector pBuffer sectorToWrite ;;
  if negb (is_ok r) then ret FCTRSTAT_ERROR else
  r <- fctr_changeSectorStatus FCTR_SECTOR_UNREAD sectorToWrite ;;
  if negb (is_ok r) then ret FCTRSTAT_ERROR else
  ret FCTRSTAT_OK.

(** The caller's buffer comes in and is returned with what it holds after the
    call. *)
Definition fctr_popFromFlash (pBuffer : list Z) : M dev (fctrStat_t * list Z) :=
  '(r, sectorToRead) <- fctr_findSectorToRead RESET ;;
  if negb (is_ok r) then ret (FCTRSTAT_ERROR, pBuffer) else
  '(r, pBuffer) <- fctr_readSector pBuffer sectorToRead ;;
  if negb (is_ok r) then ret (FCTRSTAT_ERROR, pBuffer) else
  r <- fctr_changeSectorStatus FCTR_SECTOR_READ sectorToRead ;;
  if negb (is_ok r) then ret (FCTRSTAT_ERROR, pBuffer) else
  ret (FCTRSTAT_OK, pBuffer).

(** The mirror is written through a pointer, so the list in the state is
    the memory at [fctrStatusBytes] as far as the driver was asked to fill
    it.  The first load asks for [FCTR_AVAILABLE_SECTORS] bytes, the size of
    the array.  The reload after formatting is [fctr_readSector
    (fctrStatusBytes, 0)], which asks for [FCTR_SECTOR_SIZE] bytes: the list
    is then longer than the array, and its bytes from index
    [FCTR_AVAILABLE_SECTORS] on are memory past the end of the array that
    the copy has overwritten. *)
Definition fctr_firstInit : M dev fctrStat_t :=
  r <- fctr_initIC ;;
  if negb (is_ok r) then ret FCTRSTAT_ERROR else
  '(r, _) <- fctr_getFlashSizes ;;
  if negb (is_ok r) then ret FCTRSTAT_ERROR else
  t <- get_table ;;
  '(r, t) <- fctr_readSectorStatus t ;;
  set_table (take (Z.to_nat FCTR_AVAILABLE_SECTORS) t) ;;
  if negb (is_ok r) then ret FCTRSTAT_ERROR else
  t <- get_table ;;
  if negb (rd t 0 =? SIGNATURE_BYTE) then
    fctr_formatTheMemorySpace ;;
    t <- get_table ;;
    '(r, t) <- fctr_readSector t 0 ;;
    set_table (take (Z.to_nat FCTR_SECTOR_SIZE) t) ;;
    if negb (is_ok r) then ret FCTRSTAT_ERROR else ret FCTRSTAT_OK
  else ret FCTRSTAT_OK.

(** *** Runs and what the chip has received

    [push_all] is a sequence of calls of [fctr_pushToFlash], one per payload,
    with the status each call returned. *)
Fixpoint push_all (payloads : list (list Z)) : M dev (list fctrStat_t) :=
  match payloads with
  | [] => ret []
  | p :: rest =>
      r <- fctr_pushToFlash p ;;
      rs <- push_all rest ;;
      ret (r :: rs)
  end.

(** The chip in terms of the driver calls it has received.

    [programmed x k d]: data sector [k] written with [x], after an erase when
    the driver reports the sector as not empty.
    [marked c k d]: the status byte of sector [k] written with [c].
    [persisted t d]: the map sector erased, then written with the table [t]. *)
Definition programmed (pBuffer : list Z) (k : Z) (d : dev) : dev :=
  if W25qxx_IsEmptySector (wrap32 (FCTR_RESERVED_OFFSET / FCTR_SECTOR_SIZE + k)) 0
       FCTR_SECTOR_SIZE d
  then W25qxx_WriteSector pBuffer (wrap32 (FCTR_RESERVED_OFFSET / FCTR_SECTOR_SIZE + k)) 0
         FCTR_SECTOR_SIZE d
  else W25qxx_WriteSector pBuffer (wrap32 (FCTR_RESERVED_OFFSET / FCTR_SECTOR_SIZE + k)) 0
         FCTR_SECTOR_SIZE
         (W25qxx_EraseSector (wrap32 (FCTR_RESERVED_OFFSET / FCTR_SECTOR_SIZE + k)) d).
Definition marked (c : fctrSectorStat_t) (k : Z) (d : dev) : dev :=
  W25qxx_WriteByte (to_u8 (stat_byte c)) (wrap32 (FCTR_RESERVED_OFFSET + k)) d.
Definition persisted (t : list Z) (d : dev) : dev :=
  W25qxx_WriteSector t (FCTR_RESERVED_OFFSET / FCTR_SECTOR_SIZE) 0 FCTR_AVAILABLE_SECTORS
    (W25qxx_EraseSector (FCTR_RESERVED_OFFSET / FCTR_SECTOR_SIZE) d).

(** The byte [fctr_writeByte] reads back after marking sector [k]. *)
Definition read_back (k : Z) (d : dev) : Z :=
  W25qxx_ReadByte (wrap32 (FCTR_RESERVED_OFFSET + k)) d.

(** A table of [FCTR_AVAILABLE_SECTORS] bytes: the signature, then [c]
    everywhere.  With EMPTY it is the table [fctr_formatTheMemorySpace]
    leaves in the mirror. *)
Definition uniform_table (c : fctrSectorStat_t) : list Z :=
  SIGNATURE_BYTE :: replicate (Z.to_nat (FCTR_AVAILABLE_SECTORS - 1)) (stat_byte c).
Definition formatted_table : list Z := uniform_table FCTR_SECTOR_EMPTY.

(** The mirror once [fctr_firstInit] has loaded the map sector from chip [d]
    over the table [t]. *)
Definition loaded (d : dev) (t : list Z) : list Z :=
  take (Z.to_nat FCTR_AVAILABLE_SECTORS)
    (blit (W25qxx_ReadSector (FCTR_RESERVED_OFFSET / FCTR_SECTOR_SIZE) 0
             FCTR_AVAILABLE_SECTORS d) t).

(** The table after [j] pushes into an empty one: entries 1 .. [j] are UNREAD
    and entries [j]+1 .. N-1 are EMPTY. *)
Definition filled (j : Z) (t : list Z) : Prop :=
  forall i, 1 <= i < FCTR_AVAILABLE_SECTORS ->
    rd t i = if i <=? j then stat_byte FCTR_SECTOR_UNREAD else stat_byte FCTR_SECTOR_EMPTY.

(** A payload: one sector of bytes. *)
Definition is_byte (b : Z) : Prop := 0 <= b < 256.
Definition is_payload (x : list Z) : Prop :=
  Z.of_nat (length x) = FCTR_SECTOR_SIZE /\ Forall is_byte x.

(** The mirror is an array of [FCTR_AVAILABLE_SECTORS] bytes. *)
Definition well_sized (s : fctr_state dev) : Prop :=
  Z.of_nat (length (fctrStatusBytes s)) = FCTR_AVAILABLE_SECTORS.

(** Every usable entry, 1 .. [FCTR_AVAILABLE_SECTORS] - 1, holds [c]. *)
Definition all_usable (c : fctrSectorStat_t) (t : list Z) : Prop :=
  forall i, 1 <= i < FCTR_AVAILABLE_SECTORS -> rd t i = stat_byte c.

(** What "the chip works" means for the status bytes: there is a set [Good]
    of chip states that programming a data sector and marking a sector UNREAD
    do not leave, and in which the byte written for UNREAD or READ is the byte
    read back. *)
Record status_writes_verify (Good : dev -> Prop) : Prop := {
  good_programmed : forall d x k,
    Good d -> 1 <= k < FCTR_AVAILABLE_SECTORS -> Good (programmed x k d);
  good_marked_unread : forall d k,
    Good d -> 1 <= k < FCTR_AVAILABLE_SECTORS -> Good (marked FCTR_SECTOR_UNREAD k d);
  verify_unread : forall d k,
    Good d -> 1 <= k < FCTR_AVAILABLE_SECTORS ->
    read_back k (marked FCTR_SECTOR_UNREAD k d) = stat_byte FCTR_SECTOR_UNREAD;
  verify_read : forall d k,
    Good d -> 1 <= k < FCTR_AVAILABLE_SECTORS ->
    read_back k (marked FCTR_SECTOR_READ k d) = stat_byte FCTR_SECTOR_READ
}.

(** What it means for the payloads: a data sector that was programmed reads
    back as the payload, also after a status byte has been written. *)
Definition payload_reads_back : Prop :=
  forall d x k c j,
    is_payload x ->
    1 <= k < FCTR_AVAILABLE_SECTORS -> 1 <= j < FCTR_AVAILABLE_SECTORS ->
    W25qxx_ReadSector (wrap32 (FCTR_RESERVED_OFFSET / FCTR_SECTOR_SIZE + k)) 0 FCTR_SECTOR_SIZE
      (marked c j (programmed x k d)) = x.

(** *** The mirror against the chip

    [sector_on_chip k d] is what [fctr_readSector] delivers for data sector
    [k]; [read_back k d] above is the status byte the chip holds for it. *)
Definition sector_on_chip (k : Z) (d : dev) : list Z :=
  W25qxx_ReadSector (wrap32 (FCTR_RESERVED_OFFSET / FCTR_SECTOR_SIZE + k)) 0
    FCTR_SECTOR_SIZE d.

(** The mirror and the status bytes on the chip agree, signature included. *)
Definition coherent (s : fctr_state dev) : Prop :=
  forall k, 0 <= k < FCTR_AVAILABLE_SECTORS ->
    read_back k (flash s) = rd (fctrStatusBytes s) k.

(** Every sector whose entry is UNREAD holds the payload [m] names for it. *)
Definition holds (m : Z -> list Z) (s : fctr_state dev) : Prop :=
  forall k, 1 <= k < FCTR_AVAILABLE_SECTORS ->
    rd (fctrStatusBytes s) k = stat_byte FCTR_SECTOR_UNREAD ->
    sector_on_chip k (flash s) = m k /\ is_payload (m k).

Definition put (m : Z -> list Z) (k : Z) (x : list Z) : Z -> list Z :=
  fun j => if j =? k then x else m j.

(** The indices 1 .. N-1 whose entry is UNREAD, in increasing order, and the
    payloads [m] names for them: what is waiting to be popped. *)
Definition waiting_indices (t : list Z) : list Z :=
  List.filter (fun k => rd t k =? stat_byte FCTR_SECTOR_UNREAD)
    (seqZ 1 (FCTR_AVAILABLE_SECTORS - 1)).
Definition pending (m : Z -> list Z) (s : fctr_state dev) : list (list Z) :=
  map m (waiting_indices (fctrStatusBytes s)).

(** The map sector as [fctr_readSectorStatus] reads it. *)
Definition map_on_chip (d : dev) : list Z :=
  W25qxx_ReadSector (FCTR_RESERVED_OFFSET / FCTR_SECTOR_SIZE) 0 FCTR_AVAILABLE_SECTORS d.

(** How a flash chip answers the calls of the controller: programming a byte
    clears bits, a sector read returns what was programmed after an erase,
    and no call disturbs the bytes of another sector. *)
Record flash_laws : Prop := {
  byte_programs : forall d c k,
    1 <= k < FCTR_AVAILABLE_SECTORS ->
    read_back k (marked c k d) = Z.land (read_back k d) (stat_byte c);
  byte_elsewhere : forall d c k j,
    1 <= k < FCTR_AVAILABLE_SECTORS -> 0 <= j < FCTR_AVAILABLE_SECTORS -> j <> k ->
    read_back j (marked c k d) = read_back j d;
  data_keeps_status : forall d x k j,
    1 <= k < FCTR_AVAILABLE_SECTORS -> 0 <= j < FCTR_AVAILABLE_SECTORS ->
    read_back j (programmed x k d) = read_back j d;
  persist_sets_status : forall d t k,
    Z.of_nat (length t) = FCTR_AVAILABLE_SECTORS ->
    0 <= k < FCTR_AVAILABLE_SECTORS -> is_byte (rd t k) ->
    read_back k (persisted t d) = rd t k;
  data_programs : forall d x k,
    1 <= k < FCTR_AVAILABLE_SECTORS -> is_payload x ->
    sector_on_chip k (programmed x k d) = x;
  data_elsewhere : forall d x k j,
    1 <= k < FCTR_AVAILABLE_SECTORS -> 1 <= j < FCTR_AVAILABLE_SECTORS -> j <> k ->
    sector_on_chip j (programmed x k d) = sector_on_chip j d;
  byte_keeps_data : forall d c k j,
    1 <= k < FCTR_AVAILABLE_SECTORS -> 1 <= j < FCTR_AVAILABLE_SECTORS ->
    sector_on_chip j (marked c k d) = sector_on_chip j d;
  persist_keeps_data : forall d t j,
    1 <= j < FCTR_AVAILABLE_SECTORS ->
    sector_on_chip j (persisted t d) = sector_on_chip j d;
  map_reads_status : forall d,
    Z.of_nat (length (map_on_chip d)) = FCTR_AVAILABLE_SECTORS /\
    forall k, 0 <= k < FCTR_AVAILABLE_SECTORS -> rd (map_on_chip d) k = read_back k d;
  map_reads_prefix : forall d,
    take (Z.to_nat FCTR_AVAILABLE_SECTORS)
      (W25qxx_ReadSector (FCTR_RESERVED_OFFSET / FCTR_SECTOR_SIZE) 0 FCTR_SECTOR_SIZE d)
    = map_on_chip d;
  init_keeps_status : forall d k,
    0 <= k < FCTR_AVAILABLE_SECTORS ->
    read_back k (snd (W25qxx_Init d)) = read_back k d
}.

End Controller.

(** ** A NOR flash array, the chip the examples run on *)

(** Modelled from the spec: the W25Qxx driver, which is not among the
    sources.  The record follows the adapter contract (bring-up, geometry,
    sector read/write/erase, byte write and read by absolute address) and the
    rule that programming only clears bits while erasing a sector sets all of
    them. *)
Record nor : Type := mkNor {
  cells : Z -> Z;          (* the byte at each address *)
  nor_ready : bool;        (* whether bring-up succeeds *)
  nor_kilobytes : Z;
  nor_sectors : Z;
  nor_sector_size : Z
}.

Definition with_cells (d : nor) (c : Z -> Z) : nor :=
  mkNor c (nor_ready d) (nor_kilobytes d) (nor_sectors d) (nor_sector_size d).

Definition nor_base (sector offset : Z) : Z := sector * 4096 + offset.

Definition nor_erase (sector : Z) (d : nor) : nor :=
  with_cells d (fun a =>
    if (nor_base sector 0 <=? a) && (a <? nor_base sector 4096) then 0xFF else cells d a).

Definition nor_program (buf : list Z) (sector offset n : Z) (d : nor) : nor :=
  with_cells d (fun a =>
    if (nor_base sector offset <=? a) && (a <? nor_base sector offset + n)
    then Z.land (cells d a) (rd buf (a - nor_base sector offset))
    else cells d a).

Definition nor_read (sector offset n : Z) (d : nor) : list Z :=
  map (fun i => cells d (nor_base sector offset + Z.of_nat i)) (seq 0 (Z.to_nat n)).

Definition nor_is_empty (sector offset n : Z) (d : nor) : bool :=
  forallb (fun b => b =? 0xFF) (nor_read sector offset n d).

Definition nor_program_byte (b a : Z) (d : nor) : nor :=
  with_cells d (fun x => if x =? a then Z.land (cells d x) b else cells d x).

#[export] Instance nor_IC : FlashIC nor := {|
  W25qxx_Init d := (nor_ready d, d);
  CapacityInKiloByte := nor_kilobytes;
  SectorCount := nor_sectors;
  SectorSize := nor_sector_size;
  W25qxx_EraseSector := nor_erase;
  W25qxx_WriteSector := nor_program;
  W25qxx_ReadSector := nor_read;
  W25qxx_IsEmptySector := nor_is_empty;
  W25qxx_WriteByte := nor_program_byte;
  W25qxx_ReadByte a d := cells d a
|}.

(** An 8 MB chip whose every byte is [fill]. *)
Definition nor_filled (fill : Z) (ready : bool) : nor :=
  mkNor (fun _ => fill) ready 8192 2048 4096.

(** NOR states in which every status byte 1 .. [FCTR_AVAILABLE_SECTORS] - 1
    of the map sector still has all the bits of UNREAD set. *)
Definition nor_markable (d : nor) : Prop :=
  forall k, 1 <= k < FCTR_AVAILABLE_SECTORS ->
    Z.land (cells d (FCTR_RESERVED_OFFSET + k)) (stat_byte FCTR_SECTOR_UNREAD)
    = stat_byte FCTR_SECTOR_UNREAD.

(** ** A chip that records its calls

    The state is the list of the calls that change the chip, latest first;
    it answers every read with nothing.  It shows which driver calls a
    function of the controller makes. *)
Inductive chip_call : Type :=
  | CallInit
  | CallErase (sector : Z)
  | CallWriteSector (buf : list Z) (sector offset n : Z)
  | CallWriteByte (b a : Z).

#[export] Instance recording_IC : FlashIC (list chip_call) := {|
  W25qxx_Init l := (true, CallInit :: l);
  CapacityInKiloByte _ := 8192;
  SectorCount _ := 2048;
  SectorSize _ := 4096;
  W25qxx_EraseSector sector l := CallErase sector :: l;
  W25qxx_WriteSector buf sector offset n l := CallWriteSector buf sector offset n :: l;
  W25qxx_ReadSector _ _ _ _ := [];
  W25qxx_IsEmptySector _ _ _ _ := false;
  W25qxx_WriteByte b a l := CallWriteByte b a :: l;
  W25qxx_ReadByte _ _ := 0
|}.

(** ** States for the examples *)

(** After formatting an erased chip: the formatted table in the mirror. *)
Definition fresh_state : fctr_state nor :=
  mkState formatted_table (nor_filled 0xFF true).

(** The zero-initialised mirror of a first boot, on an erased chip. *)
Definition boot_state : fctr_state nor :=
  mkState (replicate (Z.to_nat FCTR_AVAILABLE_SECTORS) 0) (nor_filled 0xFF true).

(** The formatted table on a chip whose bits are all programmed: no status
    byte can be written any more. *)
Definition worn_state : fctr_state nor :=
  mkState formatted_table (nor_filled 0 true).

(** Every usable sector delivered (READ), respectively waiting (UNREAD). *)
Definition all_read_state : fctr_state nor :=
  mkState (uniform_table FCTR_SECTOR_READ) (nor_filled 0xFF true).
Definition all_unread_state : fctr_state nor :=
  mkState (uniform_table FCTR_SECTOR_UNREAD) (nor_filled 0xFF true).

(** The same table of READ entries in front of the recording chip. *)
Definition all_read_recorded : fctr_state (list chip_call) :=
  mkState (uniform_table FCTR_SECTOR_READ) [].

(** Entry 1 delivered (READ), an older payload waiting in entry 2 and in
    every entry after it (UNREAD), and no EMPTY entry; on the chip the
    status bytes are the same and every data sector holds the payload
    [waiting]. *)
Definition waiting : list Z := replicate 4096 0x11.
Definition queued_table : list Z :=
  wr (uniform_table FCTR_SECTOR_UNREAD) 1 (stat_byte FCTR_SECTOR_READ).
Definition nor_mirroring (t : list Z) (fill : Z) : nor :=
  mkNor (fun a => if a <? 1052672 then rd t (a - 1048576) else fill) true 8192 2048 4096.
Definition queued_state : fctr_state nor :=
  mkState queued_table (nor_mirroring queued_table 0x11).

(** The formatted table, on a chip that holds it too. *)
Definition formatted_state : fctr_state nor :=
  mkState formatted_table (nor_mirroring formatted_table 0xFF).

(** The formatted table, the zeroed mirror of a first boot, and a table
    with entry 1 UNREAD, each in front of the recording chip. *)
Definition fresh_recorded : fctr_state (list chip_call) := mkState formatted_table [].
Definition boot_recorded : fctr_state (list chip_call) :=
  mkState (replicate (Z.to_nat FCTR_AVAILABLE_SECTORS) 0) [].
Definition one_unread_recorded : fctr_state (list chip_call) :=
  mkState (wr formatted_table 1 (stat_byte FCTR_SECTOR_UNREAD)) [].

(** The formatted table in front of a chip whose bring-up fails. *)
Definition dead_state : fctr_state nor :=
  mkState formatted_table (nor_filled 0xFF false).

(** One delivered sector among EMPTY ones: entry 1 is UNREAD. *)
Definition one_unread_state : fctr_state nor :=
  mkState (wr formatted_table 1 (stat_byte FCTR_SECTOR_UNREAD)) (nor_filled 0xFF true).

(** * Properties *)

(** ** Arrays *)

Lemma available_sectors_value : FCTR_AVAILABLE_SECTORS = 1792.
Proof. reflexivity. Qed.

Lemma map_sector_value : FCTR_RESERVED_OFFSET / FCTR_SECTOR_SIZE = 256.
Proof. reflexivity. Qed.

Lemma length_wr (a : list Z) i v : length (wr a i v) = length a.
Proof. unfold wr. apply length_insert. Qed.

Lemma rd_wr_same (a : list Z) i v :
  0 <= i < Z.of_nat (length a) -> rd (wr a i v) i = v.
Proof.
  intros Hi. unfold rd, wr.
  rewrite list_lookup_insert_eq by lia. reflexivity.
Qed.

Lemma rd_wr_other (a : list Z) i j v :
  0 <= i -> 0 <= j -> i <> j -> rd (wr a i v) j = rd a j.
Proof.
  intros Hi Hj Hne. unfold rd, wr.
  rewrite list_lookup_insert_ne by lia. reflexivity.
Qed.

Lemma rd_ext (a b : list Z) :
  length a = length b ->
  (forall i, 0 <= i < Z.of_nat (length a) -> rd a i = rd b i) ->
  a = b.
Proof.
  intros Hlen Hrd. apply list_eq_same_length with (n := length a); auto.
  intros i x y Hi Hx Hy.
  specialize (Hrd (Z.of_nat i) ltac:(lia)).
  unfold rd in Hrd. rewrite Nat2Z.id, Hx, Hy in Hrd. exact Hrd.
Qed.

(** ** The scanning loop *)

Lemma scan_loop_found code t : forall n i k,
  scan_loop code t i n = Some k ->
  i <= k < i + Z.of_nat n /\ rd t k = code /\
  (forall j, i <= j < k -> rd t j <> code).
Proof.
  induction n as [|n IH]; intros i k H; simpl in H; [discriminate|].
  destruct (rd t i =? code) eqn:E.
  - injection H as <-. apply Z.eqb_eq in E.
    split; [lia | split; [exact E | intros j Hj; lia]].
  - apply Z.eqb_neq in E. apply IH in H as (Hr & Hk & Hmin).
    split; [lia | split; [exact Hk |]].
    intros j Hj. destruct (Z.eq_dec j i) as [->|Hne]; [exact E|].
    apply Hmin. lia.
Qed.

Lemma scan_loop_none code t : forall n i,
  scan_loop code t i n = None <->
  (forall j, i <= j < i + Z.of_nat n -> rd t j <> code).
Proof.
  induction n as [|n IH]; intros i; simpl.
  - split; [intros _ j Hj; lia | reflexivity].
  - destruct (rd t i =? code) eqn:E.
    + apply Z.eqb_eq in E. split; [discriminate|].
      intros H. exfalso. apply (H i); [lia | exact E].
    + apply Z.eqb_neq in E. rewrite IH. split.
      * intros H j Hj. destruct (Z.eq_dec j i) as [->|Hne]; [exact E|].
        apply H. lia.
      * intros H j Hj. apply H. lia.
Qed.

(** The loop returns the least index holding [code], when there is one. *)
Lemma scan_loop_least code t n i k :
  i <= k < i + Z.of_nat n -> rd t k = code ->
  (forall j, i <= j < k -> rd t j <> code) ->
  scan_loop code t i n = Some k.
Proof.
  intros Hk Hc Hmin.
  destruct (scan_loop code t i n) as [k'|] eqn:E.
  - apply scan_loop_found in E as (Hr & Hc' & Hmin').
    f_equal. destruct (Z.lt_trichotomy k' k) as [Hlt|[->|Hgt]]; [|reflexivity|].
    + exfalso. apply (Hmin k'); [lia | exact Hc'].
    + exfalso. apply (Hmin' k); [lia | exact Hc].
  - exfalso. apply (proj1 (scan_loop_none code t n i) E k Hk Hc).
Qed.

Lemma iterations_from (from : Z) :
  0 <= from <= FCTR_AVAILABLE_SECTORS ->
  from + Z.of_nat (iterations from) = FCTR_AVAILABLE_SECTORS.
Proof. intros H. unfold iterations. lia. Qed.

(** ** The reclaiming loop *)

Lemma reclaim_loop_length : forall n t found i,
  length (fst (reclaim_loop t found i n)) = length t.
Proof.
  induction n as [|n IH]; intros t found i; simpl; [reflexivity|].
  destruct (negb _); rewrite IH; [apply length_wr | reflexivity].
Qed.

Lemma reclaim_loop_rd : forall n t found i j,
  0 <= i -> i + Z.of_nat n <= Z.of_nat (length t) -> 0 <= j ->
  rd (fst (reclaim_loop t found i n)) j =
    if (i <=? j) && (j <? i + Z.of_nat n) && negb (rd t j =? stat_byte FCTR_SECTOR_UNREAD)
    then stat_byte FCTR_SECTOR_EMPTY else rd t j.
Proof.
  induction n as [|n IH]; intros t found i j Hi Hn Hj.
  - simpl. replace ((i <=? j) && (j <? i + Z.of_nat 0)) with false; [reflexivity|].
    symmetry. apply andb_false_iff. destruct (Z.leb_spec i j); [right|left; reflexivity].
    apply Z.ltb_ge. lia.
  - cbn [reclaim_loop].
    destruct (Z.eq_dec j i) as [->|Hne].
    + replace ((i <=? i) && (i <? i + Z.of_nat (S n))) with true
        by (symmetry; apply andb_true_iff; split; [apply Z.leb_le | apply Z.ltb_lt]; lia).
      destruct (negb (rd t i =? stat_byte FCTR_SECTOR_UNREAD)) eqn:E.
      * rewrite IH by (rewrite ?length_wr; lia).
        replace (i + 1 <=? i) with false by (symmetry; apply Z.leb_gt; lia).
        cbn [andb]. apply rd_wr_same. lia.
      * rewrite IH by lia.
        replace (i + 1 <=? i) with false by (symmetry; apply Z.leb_gt; lia).
        reflexivity.
    + assert (Hrange : (i + 1 <=? j) && (j <? i + 1 + Z.of_nat n)
                       = (i <=? j) && (j <? i + Z.of_nat (S n))).
      { destruct (Z.leb_spec (i + 1) j), (Z.leb_spec i j),
          (Z.ltb_spec j (i + 1 + Z.of_nat n)), (Z.ltb_spec j (i + Z.of_nat (S n)));
          try reflexivity; lia. }
      destruct (negb (rd t i =? stat_byte FCTR_SECTOR_UNREAD)) eqn:E.
      * rewrite IH by (rewrite ?length_wr; lia).
        rewrite Hrange, rd_wr_other by lia. reflexivity.
      * rewrite IH by lia. rewrite Hrange. reflexivity.
Qed.

Lemma reclaim_loop_flag : forall n t found i,
  0 <= i ->
  snd (reclaim_loop t found i n) = true <->
  found = true \/
  exists j, i <= j < i + Z.of_nat n /\ rd t j <> stat_byte FCTR_SECTOR_UNREAD.
Proof.
  induction n as [|n IH]; intros t found i Hi.
  - simpl. split; [auto | intros [H|(j & Hj & _)]; [exact H | lia]].
  - cbn [reclaim_loop].
    destruct (rd t i =? stat_byte FCTR_SECTOR_UNREAD) eqn:E; cbn [negb].
    + apply Z.eqb_eq in E. rewrite IH by lia. split.
      * intros [H|(j & Hj & Hne)]; [auto|]. right. exists j. split; [lia | exact Hne].
      * intros [H|(j & Hj & Hne)]; [auto|]. right. exists j. split; [|exact Hne].
        destruct (Z.eq_dec j i) as [->|]; [contradiction | lia].
    + apply Z.eqb_neq in E. rewrite IH by lia. split; [|auto].
      intros _. right. exists i. split; [lia | exact E].
Qed.

(** ** The two searches *)

Section Finders.

Context {dev : Type} `{IC : FlashIC dev}.

Implicit Types (s : fctr_state dev) (t : list Z).

Local Ltac run :=
  cbv beta iota zeta delta
    [fctr_findSectorToRead fctr_findSectorToWrite fctr_refreshTheMemoryStatus
     fctr_writeSectorStatus fctr_changeSectorStatus fctr_writeByte
     bind ret get_table set_table on_chip ask_chip is_ok negb fst snd
     fctrStatusBytes flash persisted].

Lemma empty_is_not_unread : stat_byte FCTR_SECTOR_EMPTY <> stat_byte FCTR_SECTOR_UNREAD.
Proof. discriminate. Qed.

Lemma signature_is_not_empty : SIGNATURE_BYTE <> stat_byte FCTR_SECTOR_EMPTY.
Proof. discriminate. Qed.

(** The reader in its two cases. *)
Lemma findSectorToRead_found out s k :
  scan_loop (stat_byte FCTR_SECTOR_UNREAD) (fctrStatusBytes s) 1 (iterations 1) = Some k ->
  fctr_findSectorToRead out s = ((FCTRSTAT_OK, k), s).
Proof.
  intros E. destruct s as [t d]. cbn [fctrStatusBytes] in E.
  run. rewrite E. reflexivity.
Qed.

Lemma findSectorToRead_none out s :
  scan_loop (stat_byte FCTR_SECTOR_UNREAD) (fctrStatusBytes s) 1 (iterations 1) = None ->
  fctr_findSectorToRead out s = ((FCTRSTAT_ERROR, out), s).
Proof.
  intros E. destruct s as [t d]. cbn [fctrStatusBytes] in E.
  run. rewrite E. reflexivity.
Qed.

(** The allocator, first case: the first scan finds an EMPTY entry. *)
Lemma findSectorToWrite_found out s k :
  scan_loop (stat_byte FCTR_SECTOR_EMPTY) (fctrStatusBytes s) 1 (iterations 1) = Some k ->
  fctr_findSectorToWrite out s = ((FCTRSTAT_OK, k), s).
Proof.
  intros E. destruct s as [t d]. cbn [fctrStatusBytes] in E.
  run. rewrite E. reflexivity.
Qed.

(** When every usable entry is UNREAD the reclaiming loop changes nothing. *)
Lemma reclaim_loop_all_unread t :
  Z.of_nat (length t) = FCTR_AVAILABLE_SECTORS ->
  all_usable FCTR_SECTOR_UNREAD t ->
  reclaim_loop t false 1 (iterations 1) = (t, false).
Proof.
  intros Hlen Hall.
  assert (Hit := iterations_from 1 ltac:(rewrite available_sectors_value; lia)).
  destruct (reclaim_loop t false 1 (iterations 1)) as [t' found] eqn:E.
  assert (Hfound : found = false).
  { destruct found; [|reflexivity].
    assert (H : snd (reclaim_loop t false 1 (iterations 1)) = true) by (rewrite E; reflexivity).
    apply reclaim_loop_flag in H; [|lia].
    destruct H as [H|(j & Hj & Hne)]; [discriminate|].
    exfalso. apply Hne, Hall. lia. }
  subst found. f_equal.
  assert (Ht' : t' = fst (reclaim_loop t false 1 (iterations 1))) by (rewrite E; reflexivity).
  subst t'. apply rd_ext; [apply reclaim_loop_length|].
  intros i Hi. rewrite reclaim_loop_rd by lia.
  destruct ((1 <=? i) && (i <? 1 + Z.of_nat (iterations 1))) eqn:Er; [|reflexivity].
  apply andb_true_iff in Er as [E1 E2]. apply Z.leb_le in E1. apply Z.ltb_lt in E2.
  rewrite (Hall i) by lia. rewrite Z.eqb_refl. reflexivity.
Qed.

(** Second case: no EMPTY entry and nothing to reclaim. *)
Lemma findSectorToWrite_full out s :
  well_sized s ->
  all_usable FCTR_SECTOR_UNREAD (fctrStatusBytes s) ->
  fctr_findSectorToWrite out s = ((FCTRSTAT_ERROR, out), s).
Proof.
  intros Hlen Hall. destruct s as [t d].
  unfold well_sized in Hlen. cbn [fctrStatusBytes] in Hlen, Hall. run.
  assert (E : scan_loop (stat_byte FCTR_SECTOR_EMPTY) t 1 (iterations 1) = None).
  { apply scan_loop_none. intros j Hj.
    assert (Hit := iterations_from 1 ltac:(rewrite available_sectors_value; lia)).
    rewrite (Hall j) by lia. discriminate. }
  rewrite E, (reclaim_loop_all_unread t Hlen Hall). reflexivity.
Qed.

Lemma length_compacted t : length (compacted t) = length t.
Proof. unfold compacted. rewrite length_wr. apply reclaim_loop_length. Qed.

Lemma compacted_rd t i :
  Z.of_nat (length t) = FCTR_AVAILABLE_SECTORS ->
  1 <= i < FCTR_AVAILABLE_SECTORS ->
  rd (compacted t) i =
    if rd t i =? stat_byte FCTR_SECTOR_UNREAD
    then stat_byte FCTR_SECTOR_UNREAD else stat_byte FCTR_SECTOR_EMPTY.
Proof.
  intros Hlen Hi. unfold compacted.
  assert (Hit := iterations_from 1 ltac:(rewrite available_sectors_value; lia)).
  rewrite rd_wr_other by lia. rewrite reclaim_loop_rd by lia.
  replace ((1 <=? i) && (i <? 1 + Z.of_nat (iterations 1))) with true
    by (symmetry; apply andb_true_iff; split; [apply Z.leb_le | apply Z.ltb_lt]; lia).
  cbn [andb]. destruct (rd t i =? stat_byte FCTR_SECTOR_UNREAD) eqn:E; cbn [negb]; [|reflexivity].
  apply Z.eqb_eq in E. exact E.
Qed.

(** Entry 0 is never EMPTY once the signature has been put there. *)
Lemma signature_slot t :
  rd (wr t 0 SIGNATURE_BYTE) 0 <> stat_byte FCTR_SECTOR_EMPTY.
Proof. destruct t as [|x t']; unfold rd, wr; cbn; discriminate. Qed.

Lemma compacted_signature t :
  rd (compacted t) 0 <> stat_byte FCTR_SECTOR_EMPTY.
Proof. unfold compacted. apply signature_slot. Qed.

(** In a range of indices, either no entry differs from [code] or there is a
    first one that does. *)
Lemma first_other_than code t : forall n a,
  (forall j, a <= j < a + Z.of_nat n -> rd t j = code) \/
  (exists k, a <= k < a + Z.of_nat n /\ rd t k <> code /\
             forall j, a <= j < k -> rd t j = code).
Proof.
  induction n as [|n IH]; intros a.
  - left. intros j Hj. lia.
  - destruct (Z.eq_dec (rd t a) code) as [Ea|Ea].
    + destruct (IH (a + 1)) as [Hall|(k & Hk & Hne & Hmin)].
      * left. intros j Hj. destruct (Z.eq_dec j a) as [->|]; [exact Ea | apply Hall; lia].
      * right. exists k. split; [lia | split; [exact Hne|]].
        intros j Hj. destruct (Z.eq_dec j a) as [->|]; [exact Ea | apply Hmin; lia].
    + right. exists a. split; [lia | split; [exact Ea | intros j Hj; lia]].
Qed.

(** Third case: no EMPTY entry, something to reclaim.  The table is
    compacted, the chip receives it once, and the rescan returns the first
    entry that was reclaimed. *)
Lemma findSectorToWrite_compacts out s k :
  well_sized s ->
  (forall j, 1 <= j < FCTR_AVAILABLE_SECTORS ->
     rd (fctrStatusBytes s) j <> stat_byte FCTR_SECTOR_EMPTY) ->
  1 <= k < FCTR_AVAILABLE_SECTORS ->
  rd (fctrStatusBytes s) k <> stat_byte FCTR_SECTOR_UNREAD ->
  (forall j, 1 <= j < k -> rd (fctrStatusBytes s) j = stat_byte FCTR_SECTOR_UNREAD) ->
  fctr_findSectorToWrite out s =
    ((FCTRSTAT_OK, k),
     mkState (compacted (fctrStatusBytes s))
             (persisted (compacted (fctrStatusBytes s)) (flash s))).
Proof.
  intros Hlen Hnone Hk Hne Hmin. unfold well_sized in Hlen.
  assert (Hit1 := iterations_from 1 ltac:(rewrite available_sectors_value; lia)).
  assert (Hit0 := iterations_from 0 ltac:(rewrite available_sectors_value; lia)).
  destruct s as [t d]. cbn [fctrStatusBytes flash] in *. run.
  assert (E : scan_loop (stat_byte FCTR_SECTOR_EMPTY) t 1 (iterations 1) = None).
  { apply scan_loop_none. intros j Hj. apply Hnone. lia. }
  rewrite E.
  assert (Hflag : snd (reclaim_loop t false 1 (iterations 1)) = true).
  { apply reclaim_loop_flag; [lia|]. right. exists k. split; [lia | exact Hne]. }
  fold (compacted t).
  destruct (reclaim_loop t false 1 (iterations 1)) as [t' found] eqn:Er.
  cbn [snd] in Hflag. subst found.
  assert (Hc : wr t' 0 SIGNATURE_BYTE = compacted t) by (unfold compacted; rewrite Er; reflexivity).
  run. rewrite Hc.
  assert (Es : scan_loop (stat_byte FCTR_SECTOR_EMPTY) (compacted t) RESET (iterations RESET)
               = Some k).
  { unfold RESET. apply scan_loop_least; [lia| |].
    - rewrite compacted_rd by lia.
      destruct (rd t k =? stat_byte FCTR_SECTOR_UNREAD) eqn:Ek; [|reflexivity].
      apply Z.eqb_eq in Ek. contradiction.
    - intros j Hj. destruct (Z.eq_dec j 0) as [->|Hj0]; [apply compacted_signature|].
      rewrite compacted_rd by lia. rewrite (Hmin j) by lia.
      rewrite Z.eqb_refl. discriminate. }
  rewrite Es. reflexivity.
Qed.

(** C5. [fctr_findSectorToRead] leaves the whole state as it was (the table
    and the chip: no compaction, no persist); when some entry 1 .. N-1 is
    UNREAD it returns success with the smallest such index, and when none is
    it returns failure. *)
Theorem findSectorToRead_first_unread out s :
  snd (fctr_findSectorToRead out s) = s /\
  ((exists i, 1 <= i < FCTR_AVAILABLE_SECTORS /\
              rd (fctrStatusBytes s) i = stat_byte FCTR_SECTOR_UNREAD) ->
   exists k, fst (fctr_findSectorToRead out s) = (FCTRSTAT_OK, k) /\
             1 <= k < FCTR_AVAILABLE_SECTORS /\
             rd (fctrStatusBytes s) k = stat_byte FCTR_SECTOR_UNREAD /\
             forall j, 1 <= j < k -> rd (fctrStatusBytes s) j <> stat_byte FCTR_SECTOR_UNREAD) /\
  ((forall i, 1 <= i < FCTR_AVAILABLE_SECTORS ->
              rd (fctrStatusBytes s) i <> stat_byte FCTR_SECTOR_UNREAD) ->
   fst (fst (fctr_findSectorToRead out s)) = FCTRSTAT_ERROR).
Proof.
  assert (Hit := iterations_from 1 ltac:(rewrite available_sectors_value; lia)).
  destruct (scan_loop (stat_byte FCTR_SECTOR_UNREAD) (fctrStatusBytes s) 1 (iterations 1))
    as [k|] eqn:E.
  - rewrite (findSectorToRead_found out s k E). cbn [fst snd].
    apply scan_loop_found in E as (Hk & Hc & Hmin).
    split; [reflexivity | split].
    + intros _. exists k. split; [reflexivity | split; [lia | split; [exact Hc | exact Hmin]]].
    + intros Hnone. exfalso. apply (Hnone k); [lia | exact Hc].
  - rewrite (findSectorToRead_none out s E). cbn [fst snd].
    split; [reflexivity | split].
    + intros (i & Hi & Hc). exfalso.
      apply (proj1 (scan_loop_none _ _ _ _) E i); [lia | exact Hc].
    + intros _. reflexivity.
Qed.

(** C4. If some entry 1 .. N-1 is EMPTY, [fctr_findSectorToWrite] returns
    success with the smallest such index and the state (table and chip) is
    the one before the call. *)
Theorem findSectorToWrite_first_empty out s :
  (exists i, 1 <= i < FCTR_AVAILABLE_SECTORS /\
             rd (fctrStatusBytes s) i = stat_byte FCTR_SECTOR_EMPTY) ->
  exists k, fctr_findSectorToWrite out s = ((FCTRSTAT_OK, k), s) /\
            1 <= k < FCTR_AVAILABLE_SECTORS /\
            rd (fctrStatusBytes s) k = stat_byte FCTR_SECTOR_EMPTY /\
            forall j, 1 <= j < k -> rd (fctrStatusBytes s) j <> stat_byte FCTR_SECTOR_EMPTY.
Proof.
  intros (i & Hi & Hc).
  assert (Hit := iterations_from 1 ltac:(rewrite available_sectors_value; lia)).
  destruct (scan_loop (stat_byte FCTR_SECTOR_EMPTY) (fctrStatusBytes s) 1 (iterations 1))
    as [k|] eqn:E.
  - exists k. rewrite (findSectorToWrite_found out s k E).
    apply scan_loop_found in E as (Hk & Hck & Hmin).
    split; [reflexivity | split; [lia | split; [exact Hck | exact Hmin]]].
  - exfalso. apply (proj1 (scan_loop_none _ _ _ _) E i); [lia | exact Hc].
Qed.

(** C2. On a mirror of N entries, [fctr_findSectorToWrite] returns failure if
    and only if every entry 1 .. N-1 is UNREAD.  (The persist of the table
    returns success in this build, so nothing is assumed about it.) *)
Theorem findSectorToWrite_fails_iff_all_unread out s :
  well_sized s ->
  fst (fst (fctr_findSectorToWrite out s)) = FCTRSTAT_ERROR <->
  all_usable FCTR_SECTOR_UNREAD (fctrStatusBytes s).
Proof.
  intros Hlen.
  assert (Hit := iterations_from 1 ltac:(rewrite available_sectors_value; lia)).
  destruct (scan_loop (stat_byte FCTR_SECTOR_EMPTY) (fctrStatusBytes s) 1 (iterations 1))
    as [k|] eqn:E.
  - rewrite (findSectorToWrite_found out s k E). cbn [fst].
    apply scan_loop_found in E as (Hk & Hck & _).
    split; [discriminate|]. intros Hall. exfalso.
    apply empty_is_not_unread. rewrite <- Hck. apply Hall. lia.
  - destruct (first_other_than (stat_byte FCTR_SECTOR_UNREAD) (fctrStatusBytes s)
                (iterations 1) 1) as [Hall|(k & Hk & Hne & Hmin)].
    + assert (Hall' : all_usable FCTR_SECTOR_UNREAD (fctrStatusBytes s))
        by (intros j Hj; apply Hall; lia).
      rewrite (findSectorToWrite_full out s Hlen Hall'). cbn [fst].
      split; [intros _; exact Hall' | reflexivity].
    + rewrite (findSectorToWrite_compacts out s k Hlen); [| |lia|exact Hne|exact Hmin].
      * cbn [fst]. split; [discriminate|]. intros Hall. exfalso. apply Hne, Hall. lia.
      * intros j Hj. apply (proj1 (scan_loop_none _ _ _ _) E j). lia.
Qed.

(** C3. On a mirror of N entries none of whose entries 1 .. N-1 is EMPTY,
    [fctr_findSectorToWrite] sets every entry 1 .. N-1 that is not UNREAD to
    EMPTY and leaves the UNREAD ones; if some entry was not UNREAD the chip
    afterwards is the chip before with one driver erase of the map sector
    followed by one driver write of the whole resulting table to it, and the
    index returned is an EMPTY entry of that table; if all were UNREAD the
    chip is untouched. *)
Theorem compaction_reclaims_all_but_unread out s :
  well_sized s ->
  (forall j, 1 <= j < FCTR_AVAILABLE_SECTORS ->
     rd (fctrStatusBytes s) j <> stat_byte FCTR_SECTOR_EMPTY) ->
  let r := fst (fctr_findSectorToWrite out s) in
  let s' := snd (fctr_findSectorToWrite out s) in
  (forall i, 1 <= i < FCTR_AVAILABLE_SECTORS ->
     rd (fctrStatusBytes s) i <> stat_byte FCTR_SECTOR_UNREAD ->
     rd (fctrStatusBytes s') i = stat_byte FCTR_SECTOR_EMPTY) /\
  (forall i, 1 <= i < FCTR_AVAILABLE_SECTORS ->
     rd (fctrStatusBytes s) i = stat_byte FCTR_SECTOR_UNREAD ->
     rd (fctrStatusBytes s') i = stat_byte FCTR_SECTOR_UNREAD) /\
  ((exists i, 1 <= i < FCTR_AVAILABLE_SECTORS /\
              rd (fctrStatusBytes s) i <> stat_byte FCTR_SECTOR_UNREAD) ->
   flash s' =
     W25qxx_WriteSector (fctrStatusBytes s') (FCTR_RESERVED_OFFSET / FCTR_SECTOR_SIZE) 0
       FCTR_AVAILABLE_SECTORS
       (W25qxx_EraseSector (FCTR_RESERVED_OFFSET / FCTR_SECTOR_SIZE) (flash s)) /\
   fst r = FCTRSTAT_OK /\
   rd (fctrStatusBytes s') (snd r) = stat_byte FCTR_SECTOR_EMPTY) /\
  (all_usable FCTR_SECTOR_UNREAD (fctrStatusBytes s) -> s' = s).
Proof.
  intros Hlen Hnone r s'. subst r s'.
  assert (Hit := iterations_from 1 ltac:(rewrite available_sectors_value; lia)).
  destruct (first_other_than (stat_byte FCTR_SECTOR_UNREAD) (fctrStatusBytes s)
              (iterations 1) 1) as [Hall|(k & Hk & Hne & Hmin)].
  - assert (Hall' : all_usable FCTR_SECTOR_UNREAD (fctrStatusBytes s))
      by (intros j Hj; apply Hall; lia).
    rewrite (findSectorToWrite_full out s Hlen Hall'). cbn [fst snd].
    split; [|split; [|split]].
    + intros i Hi Hi'. exfalso. apply Hi', Hall'. exact Hi.
    + intros i _ Hi. exact Hi.
    + intros (i & Hi & Hi'). exfalso. apply Hi', Hall'. exact Hi.
    + reflexivity.
  - rewrite (findSectorToWrite_compacts out s k Hlen Hnone ltac:(lia) Hne Hmin).
    cbn [fst snd fctrStatusBytes flash].
    split; [|split; [|split]].
    + intros i Hi Hi'. rewrite compacted_rd by (exact Hlen || exact Hi).
      destruct (rd (fctrStatusBytes s) i =? stat_byte FCTR_SECTOR_UNREAD) eqn:Ei; [|reflexivity].
      apply Z.eqb_eq in Ei. contradiction.
    + intros i Hi Hi'. rewrite compacted_rd by (exact Hlen || exact Hi).
      rewrite Hi', Z.eqb_refl. reflexivity.
    + intros _. split; [reflexivity | split; [reflexivity|]].
      rewrite compacted_rd by (exact Hlen || lia).
      destruct (rd (fctrStatusBytes s) k =? stat_byte FCTR_SECTOR_UNREAD) eqn:Ek; [|reflexivity].
      apply Z.eqb_eq in Ek. contradiction.
    + intros Hall. exfalso. apply Hne, Hall. lia.
Qed.

(** C10. Whatever the state, an index that [fctr_findSectorToWrite] returns
    with success lies in 1 .. N-1: it is never 0, the map sector. *)
Theorem findSectorToWrite_never_map_sector out s k :
  fst (fctr_findSectorToWrite out s) = (FCTRSTAT_OK, k) ->
  1 <= k < FCTR_AVAILABLE_SECTORS.
Proof.
  assert (Hit1 := iterations_from 1 ltac:(rewrite available_sectors_value; lia)).
  assert (Hit0 := iterations_from 0 ltac:(rewrite available_sectors_value; lia)).
  destruct s as [t d]. run.
  destruct (scan_loop (stat_byte FCTR_SECTOR_EMPTY) t 1 (iterations 1)) as [k1|] eqn:E.
  - intros H. injection H as <-. apply scan_loop_found in E as (Hk & _). lia.
  - destruct (reclaim_loop t false 1 (iterations 1)) as [t' found]. run.
    destruct found; run; [|discriminate].
    destruct (scan_loop (stat_byte FCTR_SECTOR_EMPTY) (wr t' 0 SIGNATURE_BYTE) RESET
                (iterations RESET)) as [k0|] eqn:E0; [|discriminate].
    intros H. injection H as <-. unfold RESET in E0.
    apply scan_loop_found in E0 as (Hk & Hc & _).
    destruct (Z.eq_dec k0 0) as [->|Hk0]; [|lia].
    exfalso. apply (signature_slot t'). exact Hc.
Qed.

End Finders.

(** ** Status transitions and initialisation *)

Section Operations.

Context {dev : Type} `{IC : FlashIC dev}.

Implicit Types (s : fctr_state dev) (t : list Z) (d : dev).

Local Ltac run :=
  cbv beta iota zeta delta
    [fctr_changeSectorStatus fctr_writeByte fctr_firstInit fctr_initIC
     fctr_getFlashSizes fctr_readSectorStatus fctr_readSector
     fctr_formatTheMemorySpace fctr_writeSectorStatus
     fctr_pushToFlash fctr_popFromFlash fctr_writeSector
     bind ret get_table set_table on_chip ask_chip is_ok negb fst snd
     fctrStatusBytes flash persisted programmed marked read_back loaded].

Lemma to_u8_stat_byte c : to_u8 (stat_byte c) = stat_byte c.
Proof. destruct c; reflexivity. Qed.

(** [fctr_changeSectorStatus] in one equation: the chip gets the byte, the
    mirror gets the byte, and the status is that of the read-back. *)
Lemma changeSectorStatus_eq c i s :
  fctr_changeSectorStatus c i s =
    ((if read_back i (marked c i (flash s)) =? stat_byte c
      then FCTRSTAT_OK else FCTRSTAT_ERROR),
     mkState (wr (fctrStatusBytes s) i (stat_byte c)) (marked c i (flash s))).
Proof.
  destruct s as [t d]. run. rewrite to_u8_stat_byte.
  destruct (W25qxx_ReadByte _ _ =? stat_byte c); reflexivity.
Qed.

(** C1, as the code has it.  When [fctr_changeSectorStatus] returns failure
    the read-back differed from the byte written, and the mirror entry of
    that index has been overwritten with the new status byte all the same;
    the other entries are as before. *)
Theorem changeSectorStatus_failure_still_writes_mirror c i s :
  0 <= i < Z.of_nat (length (fctrStatusBytes s)) ->
  fst (fctr_changeSectorStatus c i s) = FCTRSTAT_ERROR ->
  read_back i (marked c i (flash s)) <> stat_byte c /\
  rd (fctrStatusBytes (snd (fctr_changeSectorStatus c i s))) i = stat_byte c /\
  (forall j, 0 <= j -> j <> i ->
     rd (fctrStatusBytes (snd (fctr_changeSectorStatus c i s))) j = rd (fctrStatusBytes s) j).
Proof.
  intros Hi. rewrite changeSectorStatus_eq. cbn [fst snd fctrStatusBytes].
  intros Hr. split; [|split].
  - intros E. rewrite E, Z.eqb_refl in Hr. discriminate.
  - apply rd_wr_same. exact Hi.
  - intros j Hj Hne. apply rd_wr_other; lia.
Qed.

(** C9. [fctr_firstInit] returns failure exactly when the bring-up of the
    chip fails or the capacity it reports is below 1024 KB; the sector count
    and sector size the chip reports play no part. *)
Theorem firstInit_fails_iff s :
  fst (fctr_firstInit s) = FCTRSTAT_ERROR <->
  fst (W25qxx_Init (flash s)) = false \/
  CapacityInKiloByte (snd (W25qxx_Init (flash s))) < FCTR_SIZE_OF_KILOBYTE.
Proof.
  destruct s as [t d]. run.
  destruct (W25qxx_Init d) as [ok d1]. cbn [fst snd].
  destruct ok; run.
  - destruct (Z.ltb_spec (CapacityInKiloByte d1) FCTR_SIZE_OF_KILOBYTE) as [Hc|Hc]; run.
    + split; [intros _; right; exact Hc | reflexivity].
    + destruct (rd _ 0 =? SIGNATURE_BYTE); run.
      * split; [discriminate | intros [H|H]; [discriminate | lia]].
      * split; [discriminate | intros [H|H]; [discriminate | lia]].
  - split; [intros _; left; reflexivity | reflexivity].
Qed.

(** The table that formatting builds in the mirror. *)
Lemma memset_whole t v :
  Z.of_nat (length t) <= FCTR_AVAILABLE_SECTORS ->
  memset t v FCTR_AVAILABLE_SECTORS = replicate (Z.to_nat FCTR_AVAILABLE_SECTORS) (to_u8 v).
Proof.
  intros Hlen. unfold memset, blit.
  rewrite length_replicate, drop_ge by lia. apply app_nil_r.
Qed.

Lemma formatted_table_built :
  wr (replicate (Z.to_nat FCTR_AVAILABLE_SECTORS) (stat_byte FCTR_SECTOR_EMPTY)) 0 SIGNATURE_BYTE
  = formatted_table.
Proof.
  unfold formatted_table, uniform_table.
  replace (Z.to_nat FCTR_AVAILABLE_SECTORS) with (S (Z.to_nat (FCTR_AVAILABLE_SECTORS - 1)))
    by (rewrite available_sectors_value; lia).
  reflexivity.
Qed.

Lemma length_uniform_table c :
  Z.of_nat (length (uniform_table c)) = FCTR_AVAILABLE_SECTORS.
Proof.
  unfold uniform_table. cbn [length]. rewrite length_replicate.
  rewrite available_sectors_value. lia.
Qed.

Lemma uniform_table_usable c : all_usable c (uniform_table c).
Proof.
  intros i Hi. unfold rd, uniform_table.
  replace (Z.to_nat i) with (S (Z.to_nat (i - 1))) by lia.
  rewrite lookup_cons_ne_0 by lia. cbn [pred].
  rewrite lookup_replicate_2 by lia. reflexivity.
Qed.

Lemma length_formatted_table :
  Z.of_nat (length formatted_table) = FCTR_AVAILABLE_SECTORS.
Proof. apply length_uniform_table. Qed.

Lemma formatted_table_signature : rd formatted_table 0 = SIGNATURE_BYTE.
Proof. reflexivity. Qed.

Lemma formatted_table_usable : all_usable FCTR_SECTOR_EMPTY formatted_table.
Proof. apply uniform_table_usable. Qed.

Lemma length_loaded d t :
  Z.of_nat (length (loaded d t)) <= FCTR_AVAILABLE_SECTORS.
Proof.
  unfold loaded. rewrite length_take. rewrite available_sectors_value. lia.
Qed.

(** [fctr_formatTheMemorySpace] in one equation, on a mirror of at most N
    entries. *)
Lemma formatTheMemorySpace_eq s :
  Z.of_nat (length (fctrStatusBytes s)) <= FCTR_AVAILABLE_SECTORS ->
  fctr_formatTheMemorySpace s =
    (FCTRSTAT_OK, mkState formatted_table (persisted formatted_table (flash s))).
Proof.
  intros Hlen. destruct s as [t d]. cbn [fctrStatusBytes flash] in *. run.
  rewrite (memset_whole t _ Hlen), to_u8_stat_byte, formatted_table_built.
  reflexivity.
Qed.

End Operations.

(** ** Push and pop *)

Section PushPop.

Context {dev : Type} `{IC : FlashIC dev}.

Implicit Types (s : fctr_state dev) (t x : list Z) (d : dev).

Lemma writeSector_eq x k s :
  fctr_writeSector x k s =
    (FCTRSTAT_OK, mkState (fctrStatusBytes s) (programmed x k (flash s))).
Proof.
  destruct s as [t d].
  cbv beta iota zeta delta
    [fctr_writeSector programmed bind ret on_chip ask_chip fst snd fctrStatusBytes flash].
  destruct (W25qxx_IsEmptySector _ _ _ d); reflexivity.
Qed.

(** A push once the allocator has chosen sector [k]. *)
Lemma pushToFlash_eq x s k :
  fctr_findSectorToWrite RESET s = ((FCTRSTAT_OK, k), s) ->
  fctr_pushToFlash x s =
    ((if read_back k (marked FCTR_SECTOR_UNREAD k (programmed x k (flash s)))
         =? stat_byte FCTR_SECTOR_UNREAD
      then FCTRSTAT_OK else FCTRSTAT_ERROR),
     mkState (wr (fctrStatusBytes s) k (stat_byte FCTR_SECTOR_UNREAD))
             (marked FCTR_SECTOR_UNREAD k (programmed x k (flash s)))).
Proof.
  intros Hfind. unfold fctr_pushToFlash, bind.
  rewrite Hfind. cbn [is_ok negb]. rewrite writeSector_eq. cbn [is_ok negb].
  rewrite changeSectorStatus_eq. cbn [fctrStatusBytes flash].
  destruct (read_back _ _ =? _); reflexivity.
Qed.

(** A push when nothing can be allocated. *)
Lemma pushToFlash_no_space x s :
  fctr_findSectorToWrite RESET s = ((FCTRSTAT_ERROR, RESET), s) ->
  fctr_pushToFlash x s = (FCTRSTAT_ERROR, s).
Proof. intros Hfind. unfold fctr_pushToFlash, bind. rewrite Hfind. reflexivity. Qed.

(** A pop once the reader has chosen sector [k]. *)
Lemma popFromFlash_eq buf s k :
  fctr_findSectorToRead RESET s = ((FCTRSTAT_OK, k), s) ->
  fctr_popFromFlash buf s =
    (let got := blit (W25qxx_ReadSector
                        (wrap32 (FCTR_RESERVED_OFFSET / FCTR_SECTOR_SIZE + k)) 0
                        FCTR_SECTOR_SIZE (flash s)) buf in
     ((if read_back k (marked FCTR_SECTOR_READ k (flash s)) =? stat_byte FCTR_SECTOR_READ
       then FCTRSTAT_OK else FCTRSTAT_ERROR, got),
      mkState (wr (fctrStatusBytes s) k (stat_byte FCTR_SECTOR_READ))
              (marked FCTR_SECTOR_READ k (flash s)))).
Proof.
  intros Hfind. unfold fctr_popFromFlash, bind.
  rewrite Hfind. cbn [is_ok negb].
  unfold fctr_readSector, bind, ask_chip, ret. cbn [is_ok negb].
  rewrite changeSectorStatus_eq.
  destruct (read_back _ _ =? _); reflexivity.
Qed.

Lemma filled_all_empty t : all_usable FCTR_SECTOR_EMPTY t <-> filled 0 t.
Proof.
  split; intros H i Hi; rewrite (H i Hi).
  - replace (i <=? 0) with false by (symmetry; apply Z.leb_gt; lia). reflexivity.
  - replace (i <=? 0) with false by (symmetry; apply Z.leb_gt; lia). reflexivity.
Qed.

Lemma filled_all_unread t :
  filled (FCTR_AVAILABLE_SECTORS - 1) t -> all_usable FCTR_SECTOR_UNREAD t.
Proof.
  intros H i Hi. rewrite (H i Hi).
  replace (i <=? FCTR_AVAILABLE_SECTORS - 1) with true by (symmetry; apply Z.leb_le; lia).
  reflexivity.
Qed.

(** With entries 1 .. [j] UNREAD and the rest EMPTY, the allocator chooses
    [j]+1 and touches nothing. *)
Lemma findSectorToWrite_filled out s j :
  0 <= j < FCTR_AVAILABLE_SECTORS - 1 ->
  filled j (fctrStatusBytes s) ->
  fctr_findSectorToWrite out s = ((FCTRSTAT_OK, j + 1), s).
Proof.
  intros Hj Hfill. apply findSectorToWrite_found.
  assert (Hit := iterations_from 1 ltac:(rewrite available_sectors_value; lia)).
  apply scan_loop_least; [lia| |].
  - rewrite Hfill by lia.
    replace (j + 1 <=? j) with false by (symmetry; apply Z.leb_gt; lia). reflexivity.
  - intros i Hi. rewrite Hfill by lia.
    replace (i <=? j) with true by (symmetry; apply Z.leb_le; lia). discriminate.
Qed.

Lemma filled_step t j :
  0 <= j < FCTR_AVAILABLE_SECTORS - 1 ->
  Z.of_nat (length t) = FCTR_AVAILABLE_SECTORS ->
  filled j t ->
  filled (j + 1) (wr t (j + 1) (stat_byte FCTR_SECTOR_UNREAD)).
Proof.
  intros Hj Hlen Hfill i Hi.
  destruct (Z.eq_dec i (j + 1)) as [->|Hne].
  - rewrite rd_wr_same by lia. rewrite Z.leb_refl. reflexivity.
  - rewrite rd_wr_other by lia. rewrite Hfill by lia.
    destruct (Z.leb_spec i j), (Z.leb_spec i (j + 1)); try reflexivity; lia.
Qed.

Section WorkingChip.

Variable Good : dev -> Prop.
Hypothesis chip_ok : status_writes_verify Good.

(** One push into a partly filled table on a working chip. *)
Lemma pushToFlash_filled x s j :
  0 <= j < FCTR_AVAILABLE_SECTORS - 1 ->
  well_sized s -> filled j (fctrStatusBytes s) -> Good (flash s) ->
  exists s',
    fctr_pushToFlash x s = (FCTRSTAT_OK, s') /\
    well_sized s' /\ filled (j + 1) (fctrStatusBytes s') /\ Good (flash s') /\
    s' = mkState (wr (fctrStatusBytes s) (j + 1) (stat_byte FCTR_SECTOR_UNREAD))
                 (marked FCTR_SECTOR_UNREAD (j + 1) (programmed x (j + 1) (flash s))).
Proof.
  intros Hj Hlen Hfill Hgood.
  assert (Hg1 : Good (programmed x (j + 1) (flash s)))
    by (apply (good_programmed Good chip_ok); [exact Hgood | lia]).
  eexists. split; [|split; [|split; [|split; [|reflexivity]]]].
  - rewrite (pushToFlash_eq x s (j + 1)) by (apply findSectorToWrite_filled; assumption).
    rewrite (verify_unread Good chip_ok) by (exact Hg1 || lia).
    rewrite Z.eqb_refl. reflexivity.
  - unfold well_sized in *. cbn [fctrStatusBytes]. rewrite length_wr. exact Hlen.
  - cbn [fctrStatusBytes]. apply filled_step; assumption.
  - cbn [flash]. apply (good_marked_unread Good chip_ok); [exact Hg1 | lia].
Qed.

Lemma push_all_filled : forall payloads s j,
  0 <= j -> j + Z.of_nat (length payloads) <= FCTR_AVAILABLE_SECTORS - 1 ->
  well_sized s -> filled j (fctrStatusBytes s) -> Good (flash s) ->
  exists s',
    push_all payloads s = (map (fun _ => FCTRSTAT_OK) payloads, s') /\
    well_sized s' /\ filled (j + Z.of_nat (length payloads)) (fctrStatusBytes s') /\
    Good (flash s').
Proof.
  induction payloads as [|x rest IH]; intros s j Hj Hn Hlen Hfill Hgood.
  - exists s. cbn [push_all map length]. rewrite Z.add_0_r. auto.
  - cbn [length] in Hn.
    destruct (pushToFlash_filled x s j ltac:(lia) Hlen Hfill Hgood)
      as (s1 & Hpush & Hlen1 & Hfill1 & Hgood1 & _).
    destruct (IH s1 (j + 1) ltac:(lia) ltac:(lia) Hlen1 Hfill1 Hgood1)
      as (s' & Hrest & Hlen' & Hfill' & Hgood').
    exists s'. split; [|split; [exact Hlen' | split; [|exact Hgood']]].
    + cbn [push_all map]. unfold bind at 1. rewrite Hpush.
      unfold bind at 1. rewrite Hrest. reflexivity.
    + cbn [length]. replace (j + Z.of_nat (S (length rest)))
        with (j + 1 + Z.of_nat (length rest)) by lia. exact Hfill'.
Qed.

(** C6. On a working chip, with a mirror of N entries whose entries 1 .. N-1
    are all EMPTY, N-1 pushes in a row all return success; they leave every
    entry 1 .. N-1 UNREAD, and one more push returns failure. *)
Theorem pushes_succeed_until_full payloads extra s :
  Good (flash s) ->
  well_sized s ->
  all_usable FCTR_SECTOR_EMPTY (fctrStatusBytes s) ->
  Z.of_nat (length payloads) = FCTR_AVAILABLE_SECTORS - 1 ->
  fst (push_all payloads s) = replicate (Z.to_nat (FCTR_AVAILABLE_SECTORS - 1)) FCTRSTAT_OK /\
  all_usable FCTR_SECTOR_UNREAD (fctrStatusBytes (snd (push_all payloads s))) /\
  fst (fctr_pushToFlash extra (snd (push_all payloads s))) = FCTRSTAT_ERROR.
Proof.
  intros Hgood Hlen Hempty Hn.
  destruct (push_all_filled payloads s 0 ltac:(lia) ltac:(lia) Hlen
              (proj1 (filled_all_empty _) Hempty) Hgood)
    as (s' & Hrun & Hlen' & Hfill' & _).
  rewrite Hrun. cbn [fst snd].
  replace (0 + Z.of_nat (length payloads)) with (FCTR_AVAILABLE_SECTORS - 1) in Hfill' by lia.
  apply filled_all_unread in Hfill'.
  split; [|split; [exact Hfill'|]].
  - replace (Z.to_nat (FCTR_AVAILABLE_SECTORS - 1)) with (length payloads) by lia.
    clear. induction payloads as [|x rest IH]; [reflexivity|].
    cbn [map length replicate]. f_equal. exact IH.
  - rewrite pushToFlash_no_space; [reflexivity|].
    apply findSectorToWrite_full; assumption.
Qed.

Hypothesis data_ok : payload_reads_back.

(** C7. On a working chip, with a mirror of N entries whose entries 1 .. N-1
    are all EMPTY, a push of a payload of one sector succeeds, the pop that
    follows succeeds, and the sector-sized buffer given to the pop holds the
    payload afterwards. *)
Theorem push_then_pop_returns_payload x buf s :
  Good (flash s) ->
  well_sized s ->
  all_usable FCTR_SECTOR_EMPTY (fctrStatusBytes s) ->
  is_payload x ->
  Z.of_nat (length buf) = FCTR_SECTOR_SIZE ->
  fst (fctr_pushToFlash x s) = FCTRSTAT_OK /\
  fst (fctr_popFromFlash buf (snd (fctr_pushToFlash x s))) = (FCTRSTAT_OK, x).
Proof.
  intros Hgood Hlen Hempty Hx Hbuf.
  destruct (pushToFlash_filled x s 0 ltac:(rewrite available_sectors_value; lia) Hlen
              (proj1 (filled_all_empty _) Hempty) Hgood)
    as (s1 & Hpush & Hlen1 & Hfill1 & Hgood1 & Hs1).
  rewrite Hpush. cbn [fst snd]. split; [reflexivity|].
  assert (Hit := iterations_from 1 ltac:(rewrite available_sectors_value; lia)).
  assert (HN := available_sectors_value).
  rewrite (popFromFlash_eq buf s1 1).
  - cbv zeta. cbn [fst].
    rewrite (verify_read Good chip_ok) by (exact Hgood1 || lia).
    rewrite Z.eqb_refl. f_equal.
    rewrite Hs1. cbn [flash]. change (0 + 1) with 1.
    rewrite (data_ok _ x 1 FCTR_SECTOR_UNREAD 1 Hx) by lia.
    unfold blit. destruct Hx as [Hx _]. rewrite drop_ge by lia. apply app_nil_r.
  - apply findSectorToRead_found. apply scan_loop_least; [lia| |intros i Hi; lia].
    rewrite (Hfill1 1) by lia. reflexivity.
Qed.

End WorkingChip.

End PushPop.

(** ** The NOR array is a working chip *)

Section NorFlash.

Implicit Types (d : nor) (x : list Z).

Local Ltac on_nor :=
  cbv beta iota zeta delta
    [programmed marked persisted read_back fctr_writeSector fctr_writeSectorStatus
     bind ret on_chip ask_chip fst snd fctrStatusBytes flash
     W25qxx_IsEmptySector W25qxx_WriteSector W25qxx_EraseSector
     W25qxx_WriteByte W25qxx_ReadByte W25qxx_ReadSector nor_IC].

Lemma data_sector_number k :
  1 <= k < FCTR_AVAILABLE_SECTORS ->
  wrap32 (FCTR_RESERVED_OFFSET / FCTR_SECTOR_SIZE + k) = 256 + k.
Proof.
  intros Hk. rewrite map_sector_value. unfold wrap32.
  rewrite available_sectors_value in Hk. apply Z.mod_small. lia.
Qed.

Lemma status_byte_address k :
  1 <= k < FCTR_AVAILABLE_SECTORS ->
  wrap32 (FCTR_RESERVED_OFFSET + k) = 1048576 + k.
Proof.
  intros Hk. unfold wrap32, FCTR_RESERVED_OFFSET.
  rewrite available_sectors_value in Hk. apply Z.mod_small. lia.
Qed.

(** Programming data sector [k] leaves every byte outside it alone. *)
Lemma nor_programmed_elsewhere d x k a :
  1 <= k < FCTR_AVAILABLE_SECTORS ->
  ~ (nor_base (256 + k) 0 <= a < nor_base (256 + k) 4096) ->
  cells (programmed x k d) a = cells d a.
Proof.
  intros Hk Ha. on_nor. rewrite (data_sector_number k Hk).
  change FCTR_SECTOR_SIZE with 4096.
  assert (Hout : (nor_base (256 + k) 0 <=? a) && (a <? nor_base (256 + k) 0 + 4096) = false).
  { unfold nor_base in *.
    destruct (Z.leb_spec ((256 + k) * 4096 + 0) a), (Z.ltb_spec a ((256 + k) * 4096 + 0 + 4096));
      try reflexivity. lia. }
  assert (Hout' : (nor_base (256 + k) 0 <=? a) && (a <? nor_base (256 + k) 4096) = false).
  { unfold nor_base in *.
    destruct (Z.leb_spec ((256 + k) * 4096 + 0) a), (Z.ltb_spec a ((256 + k) * 4096 + 4096));
      try reflexivity. lia. }
  destruct (nor_is_empty _ _ _ d);
    cbv beta iota delta [nor_program nor_erase with_cells cells];
    rewrite ?Hout, ?Hout'; reflexivity.
Qed.

Lemma nor_marked_cells c k d a :
  cells (marked c k d) a =
    if a =? wrap32 (FCTR_RESERVED_OFFSET + k)
    then Z.land (cells d a) (stat_byte c) else cells d a.
Proof. on_nor. rewrite to_u8_stat_byte. reflexivity. Qed.

Lemma land_unread_twice b :
  Z.land b (stat_byte FCTR_SECTOR_UNREAD) = stat_byte FCTR_SECTOR_UNREAD ->
  Z.land (Z.land b (stat_byte FCTR_SECTOR_UNREAD)) (stat_byte FCTR_SECTOR_UNREAD)
  = stat_byte FCTR_SECTOR_UNREAD.
Proof. intros ->. reflexivity. Qed.

Lemma land_read_of_unread b :
  Z.land b (stat_byte FCTR_SECTOR_UNREAD) = stat_byte FCTR_SECTOR_UNREAD ->
  Z.land b (stat_byte FCTR_SECTOR_READ) = stat_byte FCTR_SECTOR_READ.
Proof.
  intros H.
  change (stat_byte FCTR_SECTOR_READ)
    with (Z.land (stat_byte FCTR_SECTOR_UNREAD) (stat_byte FCTR_SECTOR_READ)) at 1.
  rewrite Z.land_assoc, H. reflexivity.
Qed.

(** The status bytes of a markable NOR array verify. *)
Lemma nor_status_writes_verify : status_writes_verify nor_markable.
Proof.
  split.
  - intros d x k Hd Hk j Hj. rewrite nor_programmed_elsewhere; [apply Hd; exact Hj | exact Hk |].
    unfold nor_base, FCTR_RESERVED_OFFSET. rewrite available_sectors_value in *. lia.
  - intros d k Hd Hk j Hj. rewrite nor_marked_cells.
    destruct (Z.eqb_spec (FCTR_RESERVED_OFFSET + j) (wrap32 (FCTR_RESERVED_OFFSET + k))).
    + apply land_unread_twice. apply Hd. exact Hj.
    + apply Hd. exact Hj.
  - intros d k Hd Hk. unfold read_back.
    change (W25qxx_ReadByte ?a ?d') with (cells d' a).
    rewrite nor_marked_cells, Z.eqb_refl, (status_byte_address k Hk).
    apply (Hd k Hk).
  - intros d k Hd Hk. unfold read_back.
    change (W25qxx_ReadByte ?a ?d') with (cells d' a).
    rewrite nor_marked_cells, Z.eqb_refl, (status_byte_address k Hk).
    apply land_read_of_unread. apply (Hd k Hk).
Qed.

(** A list is the images of its indices. *)
Lemma map_seq_is x (f : nat -> Z) : forall start,
  (forall i, (i < length x)%nat -> f (start + i)%nat = nth i x 0) ->
  map f (seq start (length x)) = x.
Proof.
  induction x as [|b x IH]; intros start H; [reflexivity|].
  cbn [length seq map]. f_equal.
  - rewrite <- (Nat.add_0_r start). apply (H 0%nat). cbn [length]. lia.
  - apply IH. intros i Hi.
    replace (S start + i)%nat with (start + S i)%nat by lia.
    apply (H (S i)). cbn [length]. lia.
Qed.

Lemma land_erased b : is_byte b -> Z.land 0xFF b = b.
Proof.
  intros Hb. rewrite Z.land_comm. change 0xFF with (Z.ones 8).
  rewrite Z.land_ones by lia. apply Z.mod_small. exact Hb.
Qed.

Lemma nor_is_empty_cells sector offset n d i :
  nor_is_empty sector offset n d = true ->
  (i < Z.to_nat n)%nat ->
  cells d (nor_base sector offset + Z.of_nat i) = 0xFF.
Proof.
  unfold nor_is_empty, nor_read. rewrite forallb_forall. intros H Hi.
  apply Z.eqb_eq. apply H. apply in_map_iff. exists i. split; [reflexivity|].
  apply in_seq. lia.
Qed.

(** A freshly programmed data sector holds the payload. *)
Lemma nor_programmed_here d x k i :
  1 <= k < FCTR_AVAILABLE_SECTORS ->
  (i < 4096)%nat -> is_byte (rd x (Z.of_nat i)) ->
  cells (programmed x k d) (nor_base (256 + k) 0 + Z.of_nat i) = rd x (Z.of_nat i).
Proof.
  intros Hk Hi Hb. on_nor. rewrite (data_sector_number k Hk).
  change FCTR_SECTOR_SIZE with 4096.
  set (a := nor_base (256 + k) 0 + Z.of_nat i).
  assert (Hin : (nor_base (256 + k) 0 <=? a) && (a <? nor_base (256 + k) 0 + 4096) = true).
  { apply andb_true_iff. split; [apply Z.leb_le | apply Z.ltb_lt]; subst a; lia. }
  assert (Hin' : (nor_base (256 + k) 0 <=? a) && (a <? nor_base (256 + k) 4096) = true).
  { apply andb_true_iff. unfold nor_base in *.
    split; [apply Z.leb_le | apply Z.ltb_lt]; subst a; lia. }
  assert (Hoff : a - nor_base (256 + k) 0 = Z.of_nat i) by (subst a; lia).
  destruct (nor_is_empty (256 + k) 0 4096 d) eqn:E;
    cbv beta iota delta [nor_program nor_erase with_cells cells];
    rewrite ?Hin, ?Hin', Hoff.
  - fold (cells d a). subst a. rewrite (nor_is_empty_cells _ _ _ _ i E) by lia.
    apply land_erased. exact Hb.
  - apply land_erased. exact Hb.
Qed.

Lemma nor_payload_reads_back : payload_reads_back (dev := nor).
Proof.
  intros d x k c j [Hlen Hbytes] Hk Hj.
  change (W25qxx_ReadSector ?sec ?off ?n ?d') with (nor_read sec off n d').
  rewrite (data_sector_number k Hk). unfold nor_read.
  replace (Z.to_nat FCTR_SECTOR_SIZE) with (length x) by lia.
  apply map_seq_is. intros i Hi. cbn [Nat.add].
  assert (Hi' : (i < 4096)%nat) by (unfold FCTR_SECTOR_SIZE in Hlen; lia).
  assert (Hnth : rd x (Z.of_nat i) = nth i x 0).
  { unfold rd. rewrite Nat2Z.id. symmetry. apply nth_lookup. }
  rewrite nor_marked_cells, (status_byte_address j Hj).
  destruct (Z.eqb_spec (nor_base (256 + k) 0 + Z.of_nat i) (1048576 + j)) as [E|_].
  - exfalso. unfold nor_base in E. rewrite available_sectors_value in *. lia.
  - rewrite nor_programmed_here; [exact Hnth | exact Hk | exact Hi' |].
    rewrite Hnth. apply Forall_nth; [exact Hbytes | exact Hi].
Qed.

Lemma nor_erased_markable ready : nor_markable (nor_filled 0xFF ready).
Proof. intros k Hk. reflexivity. Qed.

End NorFlash.

(** ** The properties on concrete states *)

(** Compacting a table of READ entries makes two driver calls: one erase of
    the map sector, then one write of the whole table to it. *)
Example compaction_calls :
  flash (snd (fctr_findSectorToWrite RESET all_read_recorded)) =
    [CallWriteSector formatted_table 256 0 1792; CallErase 256].
Proof. vm_compute. reflexivity. Qed.

(** C1 as stated fails: on a chip that cannot take the byte,
    [fctr_changeSectorStatus] returns failure and the mirror entry has
    changed, from EMPTY to UNREAD. *)
Lemma changeSectorStatus_failure_changes_mirror :
  fst (fctr_changeSectorStatus FCTR_SECTOR_UNREAD 1 worn_state) = FCTRSTAT_ERROR /\
  rd (fctrStatusBytes worn_state) 1 = stat_byte FCTR_SECTOR_EMPTY /\
  rd (fctrStatusBytes (snd (fctr_changeSectorStatus FCTR_SECTOR_UNREAD 1 worn_state))) 1
    <> rd (fctrStatusBytes worn_state) 1.
Proof. vm_compute. repeat split; discriminate. Qed.

Lemma changeSectorStatus_failure_witness :
  rd (fctrStatusBytes (snd (fctr_changeSectorStatus FCTR_SECTOR_UNREAD 1 worn_state))) 1
  = stat_byte FCTR_SECTOR_UNREAD.
Proof.
  refine (proj1 (proj2
    (changeSectorStatus_failure_still_writes_mirror FCTR_SECTOR_UNREAD 1 worn_state _ _))).
  - vm_compute. split; [discriminate | reflexivity].
  - vm_compute. reflexivity.
Defined.

Lemma findSectorToWrite_fails_witness :
  fst (fst (fctr_findSectorToWrite RESET all_unread_state)) = FCTRSTAT_ERROR.
Proof.
  refine (proj2 (findSectorToWrite_fails_iff_all_unread RESET all_unread_state _) _).
  - vm_compute. reflexivity.
  - apply uniform_table_usable.
Defined.

Lemma compaction_witness :
  rd (fctrStatusBytes (snd (fctr_findSectorToWrite RESET all_read_recorded))) 1
    = stat_byte FCTR_SECTOR_EMPTY /\
  flash (snd (fctr_findSectorToWrite RESET all_read_recorded))
    = [CallWriteSector (fctrStatusBytes (snd (fctr_findSectorToWrite RESET all_read_recorded)))
         256 0 1792;
       CallErase 256].
Proof.
  assert (Hsize : well_sized all_read_recorded) by (vm_compute; reflexivity).
  assert (Hnone : forall j, 1 <= j < FCTR_AVAILABLE_SECTORS ->
            rd (fctrStatusBytes all_read_recorded) j <> stat_byte FCTR_SECTOR_EMPTY).
  { intros j Hj. cbn [all_read_recorded fctrStatusBytes].
    rewrite (uniform_table_usable FCTR_SECTOR_READ j Hj). discriminate. }
  destruct (compaction_reclaims_all_but_unread RESET all_read_recorded Hsize Hnone)
    as (Hreclaimed & _ & Hpersist & _).
  split.
  - apply Hreclaimed; [vm_compute; split; [discriminate | reflexivity] | vm_compute; discriminate].
  - refine (proj1 (Hpersist _)). exists 1.
    split; [vm_compute; split; [discriminate | reflexivity] | vm_compute; discriminate].
Defined.

Lemma findSectorToWrite_first_empty_witness :
  exists k, fctr_findSectorToWrite RESET fresh_state = ((FCTRSTAT_OK, k), fresh_state) /\
            1 <= k < FCTR_AVAILABLE_SECTORS /\
            rd (fctrStatusBytes fresh_state) k = stat_byte FCTR_SECTOR_EMPTY /\
            forall j, 1 <= j < k ->
              rd (fctrStatusBytes fresh_state) j <> stat_byte FCTR_SECTOR_EMPTY.
Proof.
  apply (findSectorToWrite_first_empty RESET fresh_state).
  exists 1. vm_compute. split; [split; [discriminate | reflexivity] | reflexivity].
Defined.

Lemma findSectorToWrite_never_map_sector_witness :
  fst (fctr_findSectorToWrite RESET all_read_state) = (FCTRSTAT_OK, 1) /\
  1 <= 1 < FCTR_AVAILABLE_SECTORS.
Proof.
  assert (H : fst (fctr_findSectorToWrite RESET all_read_state) = (FCTRSTAT_OK, 1))
    by (vm_compute; reflexivity).
  split; [exact H |].
  exact (findSectorToWrite_never_map_sector RESET all_read_state 1 H).
Defined.

Lemma pushes_succeed_until_full_witness :
  fst (push_all (replicate 1791 (replicate 4096 0)) fresh_state)
    = replicate (Z.to_nat (FCTR_AVAILABLE_SECTORS - 1)) FCTRSTAT_OK /\
  all_usable FCTR_SECTOR_UNREAD
    (fctrStatusBytes (snd (push_all (replicate 1791 (replicate 4096 0)) fresh_state))) /\
  fst (fctr_pushToFlash (replicate 4096 0)
         (snd (push_all (replicate 1791 (replicate 4096 0)) fresh_state))) = FCTRSTAT_ERROR.
Proof.
  apply (pushes_succeed_until_full nor_markable nor_status_writes_verify).
  - apply nor_erased_markable.
  - apply length_formatted_table.
  - apply formatted_table_usable.
  - rewrite length_replicate. reflexivity.
Defined.

Lemma push_then_pop_witness :
  fst (fctr_pushToFlash (replicate 4096 0xA5) fresh_state) = FCTRSTAT_OK /\
  fst (fctr_popFromFlash (replicate 4096 0)
         (snd (fctr_pushToFlash (replicate 4096 0xA5) fresh_state)))
    = (FCTRSTAT_OK, replicate 4096 0xA5).
Proof.
  apply (push_then_pop_returns_payload nor_markable nor_status_writes_verify
           nor_payload_reads_back).
  - apply nor_erased_markable.
  - apply length_formatted_table.
  - apply formatted_table_usable.
  - split; [rewrite length_replicate; reflexivity |].
    apply Forall_replicate. unfold is_byte. lia.
  - rewrite length_replicate. reflexivity.
Defined.

(** * Further properties of the operations *)

(** ** Push and pop on any chip *)

Section PushPopCases.

Context {dev : Type} `{IC : FlashIC dev}.

Implicit Types (s : fctr_state dev) (t x buf : list Z) (d : dev).

Lemma no_unread_scan t :
  (forall i, 1 <= i < FCTR_AVAILABLE_SECTORS -> rd t i <> stat_byte FCTR_SECTOR_UNREAD) ->
  scan_loop (stat_byte FCTR_SECTOR_UNREAD) t 1 (iterations 1) = None.
Proof.
  intros H. apply scan_loop_none. intros j Hj. apply H.
  assert (Hit := iterations_from 1 ltac:(rewrite available_sectors_value; lia)). lia.
Qed.

Lemma first_scan t code k :
  1 <= k < FCTR_AVAILABLE_SECTORS -> rd t k = code ->
  (forall j, 1 <= j < k -> rd t j <> code) ->
  scan_loop code t 1 (iterations 1) = Some k.
Proof.
  intros Hk Hc Hmin.
  assert (Hit := iterations_from 1 ltac:(rewrite available_sectors_value; lia)).
  apply scan_loop_least; [lia | exact Hc | exact Hmin].
Qed.

(** X1. A pop with nothing to deliver fails and touches neither the buffer, nor
    the mirror, nor the chip. *)
Theorem popFromFlash_no_data buf s :
  (forall i, 1 <= i < FCTR_AVAILABLE_SECTORS ->
     rd (fctrStatusBytes s) i <> stat_byte FCTR_SECTOR_UNREAD) ->
  fctr_popFromFlash buf s = ((FCTRSTAT_ERROR, buf), s).
Proof.
  intros Hnone. unfold fctr_popFromFlash, bind.
  rewrite (findSectorToRead_none RESET s (no_unread_scan _ Hnone)). reflexivity.
Qed.

(** X2. A pop with [k] the first UNREAD entry: the buffer receives data sector
    [k], entry [k] of the mirror becomes READ and the chip gets the READ byte,
    whether or not the byte verifies; the status is success exactly when it
    does. *)
Theorem popFromFlash_first_unread buf s k :
  1 <= k < FCTR_AVAILABLE_SECTORS ->
  rd (fctrStatusBytes s) k = stat_byte FCTR_SECTOR_UNREAD ->
  (forall j, 1 <= j < k -> rd (fctrStatusBytes s) j <> stat_byte FCTR_SECTOR_UNREAD) ->
  snd (fst (fctr_popFromFlash buf s))
    = blit (W25qxx_ReadSector (wrap32 (FCTR_RESERVED_OFFSET / FCTR_SECTOR_SIZE + k)) 0
              FCTR_SECTOR_SIZE (flash s)) buf /\
  (fst (fst (fctr_popFromFlash buf s)) = FCTRSTAT_OK <->
   read_back k (marked FCTR_SECTOR_READ k (flash s)) = stat_byte FCTR_SECTOR_READ) /\
  fctrStatusBytes (snd (fctr_popFromFlash buf s))
    = wr (fctrStatusBytes s) k (stat_byte FCTR_SECTOR_READ) /\
  flash (snd (fctr_popFromFlash buf s)) = marked FCTR_SECTOR_READ k (flash s).
Proof.
  intros Hk Hc Hmin.
  rewrite (popFromFlash_eq buf s k)
    by (apply findSectorToRead_found, first_scan; assumption).
  cbv zeta. cbn [fst snd fctrStatusBytes flash].
  split; [reflexivity | split; [|split; reflexivity]].
  destruct (Z.eqb_spec (read_back k (marked FCTR_SECTOR_READ k (flash s)))
              (stat_byte FCTR_SECTOR_READ)) as [E|E].
  - split; [intros _; exact E | reflexivity].
  - split; [discriminate | contradiction].
Qed.

(** X3. A push into a full mirror fails and touches neither the mirror nor the
    chip. *)
Theorem pushToFlash_full x s :
  well_sized s ->
  all_usable FCTR_SECTOR_UNREAD (fctrStatusBytes s) ->
  fctr_pushToFlash x s = (FCTRSTAT_ERROR, s).
Proof.
  intros Hlen Hall. apply pushToFlash_no_space.
  apply findSectorToWrite_full; assumption.
Qed.

(** X4. A push with [k] the first EMPTY entry: data sector [k] is programmed and
    marked UNREAD, on the chip and in the mirror, with no erase of the map
    sector; the status is success exactly when the byte verifies. *)
Theorem pushToFlash_first_empty x s k :
  1 <= k < FCTR_AVAILABLE_SECTORS ->
  rd (fctrStatusBytes s) k = stat_byte FCTR_SECTOR_EMPTY ->
  (forall j, 1 <= j < k -> rd (fctrStatusBytes s) j <> stat_byte FCTR_SECTOR_EMPTY) ->
  (fst (fctr_pushToFlash x s) = FCTRSTAT_OK <->
   read_back k (marked FCTR_SECTOR_UNREAD k (programmed x k (flash s)))
     = stat_byte FCTR_SECTOR_UNREAD) /\
  fctrStatusBytes (snd (fctr_pushToFlash x s))
    = wr (fctrStatusBytes s) k (stat_byte FCTR_SECTOR_UNREAD) /\
  flash (snd (fctr_pushToFlash x s))
    = marked FCTR_SECTOR_UNREAD k (programmed x k (flash s)).
Proof.
  intros Hk Hc Hmin.
  rewrite (pushToFlash_eq x s k)
    by (apply findSectorToWrite_found, first_scan; assumption).
  cbn [fst snd fctrStatusBytes flash].
  split; [|split; reflexivity].
  destruct (Z.eqb_spec (read_back k (marked FCTR_SECTOR_UNREAD k (programmed x k (flash s))))
              (stat_byte FCTR_SECTOR_UNREAD)) as [E|E].
  - split; [intros _; exact E | reflexivity].
  - split; [discriminate | contradiction].
Qed.

(** A push once the allocator has compacted and chosen sector [k]. *)
Lemma pushToFlash_after_find x s k s1 :
  fctr_findSectorToWrite RESET s = ((FCTRSTAT_OK, k), s1) ->
  fctr_pushToFlash x s =
    ((if read_back k (marked FCTR_SECTOR_UNREAD k (programmed x k (flash s1)))
         =? stat_byte FCTR_SECTOR_UNREAD
      then FCTRSTAT_OK else FCTRSTAT_ERROR),
     mkState (wr (fctrStatusBytes s1) k (stat_byte FCTR_SECTOR_UNREAD))
             (marked FCTR_SECTOR_UNREAD k (programmed x k (flash s1)))).
Proof.
  intros Hfind. unfold fctr_pushToFlash, bind.
  rewrite Hfind. cbn [is_ok negb]. rewrite writeSector_eq. cbn [is_ok negb].
  rewrite changeSectorStatus_eq. cbn [fctrStatusBytes flash].
  destruct (read_back _ _ =? _); reflexivity.
Qed.

(** X5. A push with no EMPTY entry and [k] the first entry that is not UNREAD:
    the map sector is rewritten with the compacted table, then data sector
    [k] is programmed and marked UNREAD. *)
Theorem pushToFlash_compacts x s k :
  well_sized s ->
  (forall j, 1 <= j < FCTR_AVAILABLE_SECTORS ->
     rd (fctrStatusBytes s) j <> stat_byte FCTR_SECTOR_EMPTY) ->
  1 <= k < FCTR_AVAILABLE_SECTORS ->
  rd (fctrStatusBytes s) k <> stat_byte FCTR_SECTOR_UNREAD ->
  (forall j, 1 <= j < k -> rd (fctrStatusBytes s) j = stat_byte FCTR_SECTOR_UNREAD) ->
  let chip := marked FCTR_SECTOR_UNREAD k
                (programmed x k (persisted (compacted (fctrStatusBytes s)) (flash s))) in
  (fst (fctr_pushToFlash x s) = FCTRSTAT_OK <->
   read_back k chip = stat_byte FCTR_SECTOR_UNREAD) /\
  flash (snd (fctr_pushToFlash x s)) = chip /\
  rd (fctrStatusBytes (snd (fctr_pushToFlash x s))) 0 = SIGNATURE_BYTE /\
  (forall i, 1 <= i < FCTR_AVAILABLE_SECTORS ->
     rd (fctrStatusBytes (snd (fctr_pushToFlash x s))) i =
       if (i =? k) || (rd (fctrStatusBytes s) i =? stat_byte FCTR_SECTOR_UNREAD)
       then stat_byte FCTR_SECTOR_UNREAD else stat_byte FCTR_SECTOR_EMPTY).
Proof.
  intros Hlen Hnone Hk Hne Hmin chip. subst chip.
  rewrite (pushToFlash_after_find x s k _
             (findSectorToWrite_compacts RESET s k Hlen Hnone Hk Hne Hmin)).
  cbn [fst snd fctrStatusBytes flash]. unfold well_sized in Hlen.
  split; [|split; [reflexivity | split]].
  - destruct (Z.eqb_spec
        (read_back k (marked FCTR_SECTOR_UNREAD k
           (programmed x k (persisted (compacted (fctrStatusBytes s)) (flash s)))))
        (stat_byte FCTR_SECTOR_UNREAD)) as [E|E].
    + split; [intros _; exact E | reflexivity].
    + split; [discriminate | contradiction].
  - rewrite rd_wr_other by lia. unfold compacted. apply rd_wr_same.
    rewrite reclaim_loop_length, available_sectors_value in *. lia.
  - intros i Hi. destruct (Z.eqb_spec i k) as [->|Hik]; cbn [orb].
    + apply rd_wr_same. rewrite length_compacted. lia.
    + rewrite rd_wr_other by lia. rewrite compacted_rd by assumption. reflexivity.
Qed.

End PushPopCases.

(** ** What push and pop keep *)

Section Kept.

Context {dev : Type} `{IC : FlashIC dev}.

Implicit Types (s : fctr_state dev) (t x buf : list Z) (d : dev).

(** The three ways a push can go, on a mirror of N entries. *)
Lemma pushToFlash_cases x s :
  well_sized s ->
  (all_usable FCTR_SECTOR_UNREAD (fctrStatusBytes s) /\ snd (fctr_pushToFlash x s) = s) \/
  (exists k, 1 <= k < FCTR_AVAILABLE_SECTORS /\
     rd (fctrStatusBytes s) k = stat_byte FCTR_SECTOR_EMPTY /\
     snd (fctr_pushToFlash x s) =
       mkState (wr (fctrStatusBytes s) k (stat_byte FCTR_SECTOR_UNREAD))
               (marked FCTR_SECTOR_UNREAD k (programmed x k (flash s)))) \/
  (exists k, 1 <= k < FCTR_AVAILABLE_SECTORS /\
     rd (fctrStatusBytes s) k <> stat_byte FCTR_SECTOR_UNREAD /\
     snd (fctr_pushToFlash x s) =
       mkState (wr (compacted (fctrStatusBytes s)) k (stat_byte FCTR_SECTOR_UNREAD))
               (marked FCTR_SECTOR_UNREAD k
                  (programmed x k (persisted (compacted (fctrStatusBytes s)) (flash s))))).
Proof.
  intros Hlen.
  assert (Hit := iterations_from 1 ltac:(rewrite available_sectors_value; lia)).
  destruct (scan_loop (stat_byte FCTR_SECTOR_EMPTY) (fctrStatusBytes s) 1 (iterations 1))
    as [k|] eqn:E.
  - right. left. exists k.
    rewrite (pushToFlash_eq x s k (findSectorToWrite_found RESET s k E)).
    apply scan_loop_found in E as (Hk & Hc & _).
    split; [lia | split; [exact Hc | reflexivity]].
  - assert (Hnone : forall j, 1 <= j < FCTR_AVAILABLE_SECTORS ->
              rd (fctrStatusBytes s) j <> stat_byte FCTR_SECTOR_EMPTY).
    { intros j Hj. apply (proj1 (scan_loop_none _ _ _ _) E j). lia. }
    destruct (first_other_than (stat_byte FCTR_SECTOR_UNREAD) (fctrStatusBytes s)
                (iterations 1) 1) as [Hall|(k & Hk & Hne & Hmin)].
    + left. assert (Hall' : all_usable FCTR_SECTOR_UNREAD (fctrStatusBytes s))
        by (intros j Hj; apply Hall; lia).
      split; [exact Hall'|].
      rewrite pushToFlash_no_space; [reflexivity|].
      apply findSectorToWrite_full; assumption.
    + right. right. exists k.
      rewrite (pushToFlash_after_find x s k _
                 (findSectorToWrite_compacts RESET s k Hlen Hnone ltac:(lia) Hne Hmin)).
      split; [lia | split; [exact Hne | reflexivity]].
Qed.

(** The two ways a pop can go. *)
Lemma popFromFlash_cases buf s :
  snd (fctr_popFromFlash buf s) = s \/
  exists k, 1 <= k < FCTR_AVAILABLE_SECTORS /\
    rd (fctrStatusBytes s) k = stat_byte FCTR_SECTOR_UNREAD /\
    snd (fctr_popFromFlash buf s) =
      mkState (wr (fctrStatusBytes s) k (stat_byte FCTR_SECTOR_READ))
              (marked FCTR_SECTOR_READ k (flash s)).
Proof.
  assert (Hit := iterations_from 1 ltac:(rewrite available_sectors_value; lia)).
  destruct (scan_loop (stat_byte FCTR_SECTOR_UNREAD) (fctrStatusBytes s) 1 (iterations 1))
    as [k|] eqn:E.
  - right. exists k.
    rewrite (popFromFlash_eq buf s k (findSectorToRead_found RESET s k E)).
    apply scan_loop_found in E as (Hk & Hc & _).
    split; [lia | split; [exact Hc | reflexivity]].
  - left. unfold fctr_popFromFlash, bind.
    rewrite (findSectorToRead_none RESET s E). reflexivity.
Qed.

(** X6. Whatever the chip does, a push leaves every UNREAD entry UNREAD, and
    the chip receives nothing, or exactly this: the programming of one data
    sector [k] whose entry was not UNREAD and the status byte of [k], on the
    chip as it was or, after a compaction, on the chip with the map sector
    rewritten.  No other data sector is written or erased: a push never
    writes over a payload that has not been delivered. *)
Theorem pushToFlash_spares_unread x s :
  well_sized s ->
  (forall i, 1 <= i < FCTR_AVAILABLE_SECTORS ->
     rd (fctrStatusBytes s) i = stat_byte FCTR_SECTOR_UNREAD ->
     rd (fctrStatusBytes (snd (fctr_pushToFlash x s))) i = stat_byte FCTR_SECTOR_UNREAD) /\
  (snd (fctr_pushToFlash x s) = s \/
   exists k, 1 <= k < FCTR_AVAILABLE_SECTORS /\
     rd (fctrStatusBytes s) k <> stat_byte FCTR_SECTOR_UNREAD /\
     (flash (snd (fctr_pushToFlash x s))
        = marked FCTR_SECTOR_UNREAD k (programmed x k (flash s)) \/
      flash (snd (fctr_pushToFlash x s))
        = marked FCTR_SECTOR_UNREAD k
            (programmed x k (persisted (compacted (fctrStatusBytes s)) (flash s))))).
Proof.
  intros Hlen. pose proof Hlen as Hlen'. unfold well_sized in Hlen'.
  destruct (pushToFlash_cases x s Hlen)
    as [[_ ->]|[(k & Hk & Hc & ->)|(k & Hk & Hc & ->)]]; cbn [fctrStatusBytes flash].
  - split; [intros i _ Hi; exact Hi | left; reflexivity].
  - split.
    + intros i Hi Hu. rewrite rd_wr_other; [exact Hu | lia | lia |].
      intros ->. rewrite Hu in Hc. discriminate.
    + right. exists k. split; [exact Hk | split; [|left; reflexivity]].
      rewrite Hc. discriminate.
  - split.
    + intros i Hi Hu. destruct (Z.eq_dec i k) as [->|Hik]; [contradiction|].
      rewrite rd_wr_other by lia. rewrite compacted_rd by assumption.
      rewrite Hu, Z.eqb_refl. reflexivity.
    + right. exists k. split; [exact Hk | split; [exact Hc | right; reflexivity]].
Qed.

(** X7. Whatever the chip does, push and pop keep the mirror an array of N
    entries with the signature in entry 0. *)
Theorem push_pop_keep_signature x buf s :
  well_sized s ->
  rd (fctrStatusBytes s) 0 = SIGNATURE_BYTE ->
  (well_sized (snd (fctr_pushToFlash x s)) /\
   rd (fctrStatusBytes (snd (fctr_pushToFlash x s))) 0 = SIGNATURE_BYTE) /\
  (well_sized (snd (fctr_popFromFlash buf s)) /\
   rd (fctrStatusBytes (snd (fctr_popFromFlash buf s))) 0 = SIGNATURE_BYTE).
Proof.
  intros Hlen Hsig. pose proof Hlen as Hlen'. unfold well_sized in Hlen'.
  assert (HN := available_sectors_value).
  split.
  - destruct (pushToFlash_cases x s Hlen)
      as [[_ ->]|[(k & Hk & Hc & ->)|(k & Hk & Hc & ->)]];
      unfold well_sized; cbn [fctrStatusBytes flash].
    + split; assumption.
    + rewrite length_wr, rd_wr_other by lia. split; assumption.
    + rewrite length_wr, length_compacted, rd_wr_other by lia.
      split; [exact Hlen'|]. unfold compacted. apply rd_wr_same.
      rewrite reclaim_loop_length. lia.
  - destruct (popFromFlash_cases buf s) as [->|(k & Hk & Hc & ->)];
      unfold well_sized; cbn [fctrStatusBytes flash].
    + split; assumption.
    + rewrite length_wr, rd_wr_other by lia. split; assumption.
Qed.

End Kept.

(** ** Initialisation and formatting on any chip *)

Section InitAndFormat.

Context {dev : Type} `{IC : FlashIC dev}.

Implicit Types (s : fctr_state dev) (t x buf : list Z) (d : dev).

Local Ltac step :=
  cbv beta iota zeta delta [bind ret get_table set_table on_chip ask_chip is_ok negb
                            fctrStatusBytes flash].

(** [fctr_firstInit] once the bring-up and the capacity check have passed:
    the table is loaded, and the chip is formatted and read again when the
    signature is missing. *)
Lemma firstInit_eq s :
  let d1 := snd (W25qxx_Init (flash s)) in
  let t1 := loaded d1 (fctrStatusBytes s) in
  fst (W25qxx_Init (flash s)) = true ->
  FCTR_SIZE_OF_KILOBYTE <= CapacityInKiloByte d1 ->
  fctr_firstInit s =
    if rd t1 0 =? SIGNATURE_BYTE
    then (FCTRSTAT_OK, mkState t1 d1)
    else (FCTRSTAT_OK,
          mkState (take (Z.to_nat FCTR_SECTOR_SIZE)
                     (blit (W25qxx_ReadSector (FCTR_RESERVED_OFFSET / FCTR_SECTOR_SIZE) 0
                              FCTR_SECTOR_SIZE (persisted formatted_table d1))
                           formatted_table))
                  (persisted formatted_table d1)).
Proof.
  intros d1 t1 Hok Hcap. subst d1 t1.
  destruct s as [t d]. cbn [fctrStatusBytes flash] in *.
  unfold fctr_firstInit, fctr_initIC, fctr_getFlashSizes, fctr_readSectorStatus. step.
  destruct (W25qxx_Init d) as [ok d1]. cbn [fst snd] in *. subst ok. step.
  destruct (Z.ltb_spec (CapacityInKiloByte d1) FCTR_SIZE_OF_KILOBYTE) as [Hc|Hc]; [lia|].
  step. fold (loaded d1 t).
  destruct (rd (loaded d1 t) 0 =? SIGNATURE_BYTE); cbv beta iota zeta delta [negb bind];
    [reflexivity|].
  rewrite formatTheMemorySpace_eq by (cbn [fctrStatusBytes]; apply length_loaded).
  unfold fctr_readSector. step.
  change (wrap32 (FCTR_RESERVED_OFFSET / FCTR_SECTOR_SIZE + 0))
    with (FCTR_RESERVED_OFFSET / FCTR_SECTOR_SIZE).
  reflexivity.
Qed.

(** X8. When the table loaded from the chip carries the signature,
    [fctr_firstInit] formats nothing: the mirror is the loaded table and the
    chip has only been brought up. *)
Theorem firstInit_keeps_formatted_media s :
  let d1 := snd (W25qxx_Init (flash s)) in
  fst (W25qxx_Init (flash s)) = true ->
  FCTR_SIZE_OF_KILOBYTE <= CapacityInKiloByte d1 ->
  rd (loaded d1 (fctrStatusBytes s)) 0 = SIGNATURE_BYTE ->
  fctr_firstInit s = (FCTRSTAT_OK, mkState (loaded d1 (fctrStatusBytes s)) d1).
Proof.
  intros d1 Hok Hcap Hsig. subst d1.
  rewrite (firstInit_eq s Hok Hcap). cbv zeta. rewrite Hsig, Z.eqb_refl. reflexivity.
Qed.

(** X9. When [fctr_firstInit] fails, the mirror is as it was and the chip has
    seen the bring-up only: nothing was read into the mirror, nothing
    formatted. *)
Theorem firstInit_failure_leaves_mirror s :
  fst (fctr_firstInit s) = FCTRSTAT_ERROR ->
  snd (fctr_firstInit s) = mkState (fctrStatusBytes s) (snd (W25qxx_Init (flash s))).
Proof.
  destruct s as [t d]. cbn [fctrStatusBytes flash].
  unfold fctr_firstInit, fctr_initIC, fctr_getFlashSizes, fctr_readSectorStatus,
    fctr_formatTheMemorySpace, fctr_writeSectorStatus, fctr_readSector. step.
  destruct (W25qxx_Init d) as [ok d1]. cbn [fst snd].
  destruct ok; step; [|reflexivity].
  destruct (CapacityInKiloByte d1 <? FCTR_SIZE_OF_KILOBYTE); step; [reflexivity|].
  destruct (rd _ 0 =? SIGNATURE_BYTE); step; cbn [fst]; discriminate.
Qed.

(** X10. Formatting succeeds on every chip, leaves the formatted table in the
    mirror whatever the mirror held, and the chip receives one driver erase
    of the map sector followed by one driver write of that table to it;
    formatting again leaves the same table. *)
Theorem formatTheMemorySpace_idempotent s :
  well_sized s ->
  fctr_formatTheMemorySpace s =
    (FCTRSTAT_OK,
     mkState formatted_table
       (W25qxx_WriteSector formatted_table (FCTR_RESERVED_OFFSET / FCTR_SECTOR_SIZE) 0
          FCTR_AVAILABLE_SECTORS
          (W25qxx_EraseSector (FCTR_RESERVED_OFFSET / FCTR_SECTOR_SIZE) (flash s)))) /\
  fctrStatusBytes (snd (fctr_formatTheMemorySpace (snd (fctr_formatTheMemorySpace s))))
    = fctrStatusBytes (snd (fctr_formatTheMemorySpace s)).
Proof.
  intros Hlen. unfold well_sized in Hlen.
  rewrite (formatTheMemorySpace_eq s) by lia. split; [reflexivity|].
  cbn [snd]. rewrite formatTheMemorySpace_eq; [reflexivity|].
  cbn [fctrStatusBytes]. rewrite length_formatted_table. lia.
Qed.

(** X11. Right after formatting, a pop finds nothing and changes nothing, and a
    push goes to data sector 1. *)
Theorem format_then_pop_or_push x buf s :
  well_sized s ->
  let s1 := snd (fctr_formatTheMemorySpace s) in
  fctr_popFromFlash buf s1 = ((FCTRSTAT_ERROR, buf), s1) /\
  snd (fctr_pushToFlash x s1) =
    mkState (wr formatted_table 1 (stat_byte FCTR_SECTOR_UNREAD))
            (marked FCTR_SECTOR_UNREAD 1
               (programmed x 1 (persisted formatted_table (flash s)))).
Proof.
  intros Hlen s1. subst s1. unfold well_sized in Hlen.
  rewrite (formatTheMemorySpace_eq s) by lia. cbn [snd].
  assert (HN := available_sectors_value).
  split.
  - unfold fctr_popFromFlash, bind. rewrite findSectorToRead_none; [reflexivity|].
    cbn [fctrStatusBytes]. apply no_unread_scan. intros i Hi.
    rewrite (formatted_table_usable i Hi). discriminate.
  - rewrite (pushToFlash_eq x _ 1); [reflexivity|].
    apply (findSectorToWrite_filled RESET _ 0); [lia|].
    cbn [fctrStatusBytes]. apply filled_all_empty, formatted_table_usable.
Qed.

End InitAndFormat.

(** ** Push and pop on a chip that follows the flash laws *)

Section Coherence.

Context {dev : Type} `{IC : FlashIC dev}.

Implicit Types (s : fctr_state dev) (t x buf : list Z) (d : dev) (m : Z -> list Z).

Hypothesis laws : flash_laws.

Lemma is_byte_stat_byte c : is_byte (stat_byte c).
Proof. destruct c; unfold is_byte; cbn; lia. Qed.

(** Marking an allocated EMPTY sector: from a state that is coherent and
    holds [m], with entry [k] EMPTY, programming [x] into sector [k] and
    marking it UNREAD verifies and gives a state that is coherent and holds
    [m] with [x] at [k]. *)
Lemma allocate_step m x s k :
  well_sized s -> coherent s -> holds m s -> is_payload x ->
  1 <= k < FCTR_AVAILABLE_SECTORS ->
  rd (fctrStatusBytes s) k = stat_byte FCTR_SECTOR_EMPTY ->
  let s' := mkState (wr (fctrStatusBytes s) k (stat_byte FCTR_SECTOR_UNREAD))
                    (marked FCTR_SECTOR_UNREAD k (programmed x k (flash s))) in
  read_back k (flash s') = stat_byte FCTR_SECTOR_UNREAD /\
  well_sized s' /\ coherent s' /\ holds (put m k x) s'.
Proof.
  intros Hlen Hcoh Hm Hx Hk Hempty s'. subst s'. cbn [flash fctrStatusBytes].
  pose proof Hlen as Hlen'. unfold well_sized in Hlen'.
  assert (Hback : read_back k (marked FCTR_SECTOR_UNREAD k (programmed x k (flash s)))
                  = stat_byte FCTR_SECTOR_UNREAD).
  { rewrite (byte_programs laws) by exact Hk.
    rewrite (data_keeps_status laws) by lia.
    rewrite (Hcoh k) by lia. rewrite Hempty. reflexivity. }
  split; [exact Hback | split; [|split]].
  - unfold well_sized. cbn [fctrStatusBytes]. rewrite length_wr. exact Hlen'.
  - intros j Hj. cbn [flash fctrStatusBytes].
    destruct (Z.eq_dec j k) as [->|Hjk].
    + rewrite rd_wr_same by lia. exact Hback.
    + rewrite rd_wr_other by lia.
      rewrite (byte_elsewhere laws), (data_keeps_status laws) by lia.
      apply Hcoh. exact Hj.
  - intros j Hj. cbn [flash fctrStatusBytes]. unfold put.
    rewrite (byte_keeps_data laws) by lia.
    destruct (Z.eqb_spec j k) as [->|Hjk].
    + intros _. split; [apply (data_programs laws); assumption | exact Hx].
    + rewrite rd_wr_other by lia. intros Hu.
      rewrite (data_elsewhere laws) by lia. apply Hm; assumption.
Qed.

(** The state that compaction leaves is coherent and holds the same
    payloads. *)
Lemma compacted_state_ok m s :
  well_sized s -> holds m s ->
  let s1 := mkState (compacted (fctrStatusBytes s))
                    (persisted (compacted (fctrStatusBytes s)) (flash s)) in
  well_sized s1 /\ coherent s1 /\ holds m s1.
Proof.
  intros Hlen Hm s1. subst s1. unfold well_sized in *. cbn [fctrStatusBytes flash].
  assert (HN := available_sectors_value).
  split; [rewrite length_compacted; exact Hlen | split].
  - intros k Hk. cbn [fctrStatusBytes flash].
    apply (persist_sets_status laws); [rewrite length_compacted; exact Hlen | exact Hk |].
    destruct (Z.eq_dec k 0) as [->|Hk0].
    + unfold compacted. rewrite rd_wr_same
        by (rewrite reclaim_loop_length; lia).
      unfold is_byte, SIGNATURE_BYTE. lia.
    + rewrite compacted_rd by (exact Hlen || lia).
      destruct (_ =? _); apply is_byte_stat_byte.
  - intros j Hj. cbn [fctrStatusBytes flash].
    rewrite compacted_rd by assumption.
    destruct (Z.eqb_spec (rd (fctrStatusBytes s) j) (stat_byte FCTR_SECTOR_UNREAD)) as [E|E];
      [|discriminate].
    intros _. rewrite (persist_keeps_data laws) by exact Hj. apply Hm; assumption.
Qed.


(** A pop from a coherent state with [k] the first UNREAD entry: it succeeds,
    the buffer holds the payload of sector [k], entry [k] is READ, and the
    new state is coherent and still holds the other payloads. *)
Lemma pop_step m buf s k :
  well_sized s -> coherent s -> holds m s ->
  Z.of_nat (length buf) = FCTR_SECTOR_SIZE ->
  1 <= k < FCTR_AVAILABLE_SECTORS ->
  rd (fctrStatusBytes s) k = stat_byte FCTR_SECTOR_UNREAD ->
  (forall j, 1 <= j < k -> rd (fctrStatusBytes s) j <> stat_byte FCTR_SECTOR_UNREAD) ->
  let s' := mkState (wr (fctrStatusBytes s) k (stat_byte FCTR_SECTOR_READ))
                    (marked FCTR_SECTOR_READ k (flash s)) in
  fctr_popFromFlash buf s = ((FCTRSTAT_OK, m k), s') /\
  well_sized s' /\ coherent s' /\ holds m s'.
Proof.
  intros Hlen Hcoh Hm Hbuf Hk Hu Hmin s'. subst s'.
  pose proof Hlen as Hlen'. unfold well_sized in Hlen'.
  destruct (Hm k Hk Hu) as [Hdata [Hmlen _]].
  assert (Hback : read_back k (marked FCTR_SECTOR_READ k (flash s))
                  = stat_byte FCTR_SECTOR_READ).
  { rewrite (byte_programs laws) by exact Hk.
    rewrite (Hcoh k) by lia. rewrite Hu. reflexivity. }
  split; [|split; [|split]].
  - rewrite (popFromFlash_eq buf s k)
      by (apply findSectorToRead_found, first_scan; assumption).
    cbv zeta. rewrite Hback, Z.eqb_refl.
    fold (sector_on_chip k (flash s)). rewrite Hdata.
    unfold blit. rewrite drop_ge by lia. rewrite app_nil_r. reflexivity.
  - unfold well_sized. cbn [fctrStatusBytes]. rewrite length_wr. exact Hlen'.
  - intros j Hj. cbn [flash fctrStatusBytes].
    destruct (Z.eq_dec j k) as [->|Hjk].
    + rewrite rd_wr_same by lia. exact Hback.
    + rewrite rd_wr_other by lia. rewrite (byte_elsewhere laws) by lia.
      apply Hcoh. exact Hj.
  - intros j Hj. cbn [flash fctrStatusBytes].
    rewrite (byte_keeps_data laws) by lia.
    destruct (Z.eq_dec j k) as [->|Hjk].
    + rewrite rd_wr_same by lia. discriminate.
    + rewrite rd_wr_other by lia. apply Hm. exact Hj.
Qed.

End Coherence.

(** ** The queue on a chip that follows the flash laws *)

Section Queue.

Context {dev : Type} `{IC : FlashIC dev}.

Implicit Types (s : fctr_state dev) (t x y z buf : list Z) (d : dev) (m : Z -> list Z).

Hypothesis laws : flash_laws.



(** X14. Two pushes into an empty queue, then two pops: both pushes and both pops
    succeed and the payloads come back in the order they were pushed. *)
Theorem two_pushes_pop_in_order x y buf s :
  well_sized s -> coherent s ->
  all_usable FCTR_SECTOR_EMPTY (fctrStatusBytes s) ->
  is_payload x -> is_payload y ->
  Z.of_nat (length buf) = FCTR_SECTOR_SIZE ->
  let s1 := snd (fctr_pushToFlash x s) in
  let s2 := snd (fctr_pushToFlash y s1) in
  let s3 := snd (fctr_popFromFlash buf s2) in
  fst (fctr_pushToFlash x s) = FCTRSTAT_OK /\
  fst (fctr_pushToFlash y s1) = FCTRSTAT_OK /\
  fst (fctr_popFromFlash buf s2) = (FCTRSTAT_OK, x) /\
  fst (fctr_popFromFlash buf s3) = (FCTRSTAT_OK, y).
Proof.
  intros Hlen Hcoh Hempty Hx Hy Hbuf s1 s2 s3. subst s1 s2 s3.
  assert (HN := available_sectors_value).
  pose proof Hlen as Hlen'. unfold well_sized in Hlen'.
  assert (Hfill0 := proj1 (filled_all_empty _) Hempty).
  assert (Hm0 : holds (fun _ => []) s).
  { intros k Hk Hu. rewrite (Hempty k Hk) in Hu. discriminate. }
  (* first push: sector 1 *)
  rewrite (pushToFlash_eq x s 1) by (apply (findSectorToWrite_filled RESET s 0); [lia | exact Hfill0]).
  destruct (allocate_step laws _ x s 1 Hlen Hcoh Hm0 Hx ltac:(lia) (Hempty 1 ltac:(lia)))
    as (Hback1 & Hlen1 & Hcoh1 & Hm1).
  cbn [fst snd flash fctrStatusBytes] in *. rewrite Hback1, Z.eqb_refl.
  set (s1 := mkState _ _) in *.
  assert (Hfill1 : filled 1 (fctrStatusBytes s1))
    by (apply (filled_step _ 0); [lia | exact Hlen' | exact Hfill0]).
  (* second push: sector 2 *)
  rewrite (pushToFlash_eq y s1 2)
    by (apply (findSectorToWrite_filled RESET s1 1); [lia | exact Hfill1]).
  assert (He2 : rd (fctrStatusBytes s1) 2 = stat_byte FCTR_SECTOR_EMPTY)
    by (rewrite (Hfill1 2) by lia; reflexivity).
  destruct (allocate_step laws _ y s1 2 Hlen1 Hcoh1 Hm1 Hy ltac:(lia) He2)
    as (Hback2 & Hlen2 & Hcoh2 & Hm2).
  cbn [fst snd flash fctrStatusBytes] in *. rewrite Hback2, Z.eqb_refl.
  set (s2 := mkState _ (marked FCTR_SECTOR_UNREAD 2 _)) in *.
  assert (Hfill2 : filled 2 (fctrStatusBytes s2)).
  { apply (filled_step _ 1); [lia | | exact Hfill1].
    unfold well_sized in Hlen1. exact Hlen1. }
  (* first pop: sector 1 *)
  assert (Hu1 : rd (fctrStatusBytes s2) 1 = stat_byte FCTR_SECTOR_UNREAD)
    by (rewrite (Hfill2 1) by lia; reflexivity).
  destruct (pop_step laws _ buf s2 1 Hlen2 Hcoh2 Hm2 Hbuf ltac:(lia) Hu1
              ltac:(intros j Hj; lia))
    as (Hpop1 & Hlen3 & Hcoh3 & Hm3).
  rewrite Hpop1. cbn [fst snd].
  set (s3 := mkState _ (marked FCTR_SECTOR_READ 1 _)) in *.
  (* second pop: sector 2 *)
  assert (Hu2 : rd (fctrStatusBytes s3) 2 = stat_byte FCTR_SECTOR_UNREAD).
  { subst s3. cbn [fctrStatusBytes]. unfold well_sized in Hlen2.
    rewrite rd_wr_other by lia. rewrite (Hfill2 2) by lia. reflexivity. }
  assert (Hr1 : forall j, 1 <= j < 2 ->
            rd (fctrStatusBytes s3) j <> stat_byte FCTR_SECTOR_UNREAD).
  { intros j Hj. assert (j = 1) as -> by lia. subst s3. cbn [fctrStatusBytes].
    unfold well_sized in Hlen2. rewrite rd_wr_same by lia. discriminate. }
  destruct (pop_step laws _ buf s3 2 Hlen3 Hcoh3 Hm3 Hbuf ltac:(lia) Hu2 Hr1)
    as (Hpop2 & _).
  rewrite Hpop2. cbn [fst]. unfold put. cbn.
  repeat split; reflexivity.
Qed.

(** X15. The queue is ordered by sector, not by age.  With no EMPTY entry left
    and entry 1 delivered, a push compacts and reuses sector 1, and the pop
    that follows returns that newest payload, while the payloads still
    UNREAD in the other sectors stay where they are. *)
Theorem push_after_compaction_is_popped_first m z buf s :
  well_sized s -> holds m s ->
  (forall j, 1 <= j < FCTR_AVAILABLE_SECTORS ->
     rd (fctrStatusBytes s) j <> stat_byte FCTR_SECTOR_EMPTY) ->
  rd (fctrStatusBytes s) 1 <> stat_byte FCTR_SECTOR_UNREAD ->
  is_payload z ->
  Z.of_nat (length buf) = FCTR_SECTOR_SIZE ->
  let s1 := snd (fctr_pushToFlash z s) in
  fst (fctr_pushToFlash z s) = FCTRSTAT_OK /\
  fst (fctr_popFromFlash buf s1) = (FCTRSTAT_OK, z) /\
  holds m (snd (fctr_popFromFlash buf s1)) /\
  (forall i, 1 < i < FCTR_AVAILABLE_SECTORS ->
     rd (fctrStatusBytes s) i = stat_byte FCTR_SECTOR_UNREAD ->
     rd (fctrStatusBytes (snd (fctr_popFromFlash buf s1))) i = stat_byte FCTR_SECTOR_UNREAD).
Proof.
  intros Hlen Hm Hnone Hne Hz Hbuf s1. subst s1.
  assert (HN := available_sectors_value).
  pose proof Hlen as Hlen'. unfold well_sized in Hlen'.
  rewrite (pushToFlash_after_find z s 1 _
             (findSectorToWrite_compacts RESET s 1 Hlen Hnone ltac:(lia) Hne
                ltac:(intros j Hj; lia))).
  destruct (compacted_state_ok laws m s Hlen Hm) as (Hlen1 & Hcoh1 & Hm1).
  assert (Hc : rd (compacted (fctrStatusBytes s)) 1 = stat_byte FCTR_SECTOR_EMPTY).
  { rewrite compacted_rd by (exact Hlen' || lia).
    destruct (Z.eqb_spec (rd (fctrStatusBytes s) 1) (stat_byte FCTR_SECTOR_UNREAD));
      [contradiction | reflexivity]. }
  destruct (allocate_step laws m z _ 1 Hlen1 Hcoh1 Hm1 Hz ltac:(lia) Hc)
    as (Hback & Hlen2 & Hcoh2 & Hm2).
  cbn [fst snd flash fctrStatusBytes] in *. rewrite Hback, Z.eqb_refl.
  set (s2 := mkState _ (marked FCTR_SECTOR_UNREAD 1 _)) in *.
  assert (Hu : rd (fctrStatusBytes s2) 1 = stat_byte FCTR_SECTOR_UNREAD).
  { subst s2. cbn [fctrStatusBytes]. apply rd_wr_same. rewrite length_compacted. lia. }
  destruct (pop_step laws _ buf s2 1 Hlen2 Hcoh2 Hm2 Hbuf ltac:(lia) Hu
              ltac:(intros j Hj; lia))
    as (Hpop & Hlen3 & Hcoh3 & Hm3).
  rewrite Hpop. cbn [fst snd].
  split; [reflexivity | split; [unfold put; reflexivity | split]].
  - intros j Hj. cbn [fctrStatusBytes flash].
    destruct (Z.eq_dec j 1) as [->|Hj1].
    + subst s2. cbn [fctrStatusBytes].
      rewrite rd_wr_same by (rewrite length_wr, length_compacted; lia). discriminate.
    + intros Hu'. destruct (Hm3 j Hj Hu') as [Hd Hp].
      unfold put in Hd, Hp. destruct (Z.eqb_spec j 1); [contradiction|].
      split; assumption.
  - intros i Hi Hu'. cbn [fctrStatusBytes]. subst s2. cbn [fctrStatusBytes].
    rewrite !rd_wr_other by lia. rewrite compacted_rd by (exact Hlen' || lia).
    rewrite Hu', Z.eqb_refl. reflexivity.
Qed.

End Queue.

(** ** The payloads waiting in the queue *)

Section Pending.

Context {dev : Type} `{IC : FlashIC dev}.

Implicit Types (s : fctr_state dev) (t x buf : list Z) (d : dev) (m : Z -> list Z).

Lemma in_seqZ k a n : In k (seqZ a n) <-> a <= k < a + n.
Proof. rewrite <- list_elem_of_In. apply elem_of_seqZ. Qed.

Lemma filter_none (f : Z -> bool) (l : list Z) :
  (forall j, In j l -> f j = false) -> List.filter f l = [].
Proof.
  induction l as [|a l IH]; intros H; [reflexivity|].
  cbn [List.filter]. rewrite (H a) by (left; reflexivity).
  apply IH. intros j Hj. apply H. right. exact Hj.
Qed.

(** The usable indices around [k]. *)
Lemma usable_split k :
  1 <= k < FCTR_AVAILABLE_SECTORS ->
  seqZ 1 (FCTR_AVAILABLE_SECTORS - 1) =
    seqZ 1 (k - 1) ++ k :: seqZ (k + 1) (FCTR_AVAILABLE_SECTORS - 1 - k).
Proof.
  intros Hk.
  replace (FCTR_AVAILABLE_SECTORS - 1) with ((k - 1) + (FCTR_AVAILABLE_SECTORS - k)) at 1 by lia.
  rewrite seqZ_app by lia. f_equal.
  replace (1 + (k - 1)) with k by lia.
  rewrite seqZ_cons by lia. f_equal. f_equal; lia.
Qed.

Lemma waiting_split t k :
  1 <= k < FCTR_AVAILABLE_SECTORS ->
  waiting_indices t =
    List.filter (fun j => rd t j =? stat_byte FCTR_SECTOR_UNREAD) (seqZ 1 (k - 1))
    ++ (if rd t k =? stat_byte FCTR_SECTOR_UNREAD then [k] else [])
    ++ List.filter (fun j => rd t j =? stat_byte FCTR_SECTOR_UNREAD)
         (seqZ (k + 1) (FCTR_AVAILABLE_SECTORS - 1 - k)).
Proof.
  intros Hk. unfold waiting_indices. rewrite (usable_split k Hk).
  rewrite List.filter_app. cbn [List.filter].
  destruct (rd t k =? stat_byte FCTR_SECTOR_UNREAD); reflexivity.
Qed.

(** Two tables with the same UNREAD entries away from [k] have the same
    waiting indices on either side of [k]. *)
Lemma waiting_side t t' k a n :
  (forall j, a <= j < a + n -> j <> k ->
     (rd t' j =? stat_byte FCTR_SECTOR_UNREAD) = (rd t j =? stat_byte FCTR_SECTOR_UNREAD)) ->
  ~ (a <= k < a + n) ->
  List.filter (fun j => rd t' j =? stat_byte FCTR_SECTOR_UNREAD) (seqZ a n)
  = List.filter (fun j => rd t j =? stat_byte FCTR_SECTOR_UNREAD) (seqZ a n).
Proof.
  intros Hsame Hout. apply List.filter_ext_in. intros j Hj.
  apply in_seqZ in Hj. apply Hsame; [exact Hj | intros ->; contradiction].
Qed.

(** Delivering the first UNREAD entry removes the head of the waiting
    indices. *)
Lemma waiting_after_pop t k :
  Z.of_nat (length t) = FCTR_AVAILABLE_SECTORS ->
  1 <= k < FCTR_AVAILABLE_SECTORS ->
  rd t k = stat_byte FCTR_SECTOR_UNREAD ->
  (forall j, 1 <= j < k -> rd t j <> stat_byte FCTR_SECTOR_UNREAD) ->
  waiting_indices t = k :: waiting_indices (wr t k (stat_byte FCTR_SECTOR_READ)).
Proof.
  intros Hlen Hk Hu Hmin.
  rewrite (waiting_split t k Hk), (waiting_split (wr t k _) k Hk).
  rewrite rd_wr_same by lia. rewrite Hu, Z.eqb_refl.
  change (stat_byte FCTR_SECTOR_READ =? stat_byte FCTR_SECTOR_UNREAD) with false.
  assert (Hnil : List.filter (fun j => rd t j =? stat_byte FCTR_SECTOR_UNREAD) (seqZ 1 (k - 1))
                 = []).
  { apply filter_none. intros j Hj. apply in_seqZ in Hj.
    apply Z.eqb_neq. apply Hmin. lia. }
  rewrite !(waiting_side t (wr t k _) k)
    by (try lia; intros j Hj Hjk; rewrite rd_wr_other by lia; reflexivity).
  rewrite Hnil. reflexivity.
Qed.

(** Marking an entry that was not UNREAD inserts its index among the
    waiting ones. *)
Lemma waiting_after_allocate t t1 k :
  Z.of_nat (length t1) = FCTR_AVAILABLE_SECTORS ->
  1 <= k < FCTR_AVAILABLE_SECTORS ->
  rd t k <> stat_byte FCTR_SECTOR_UNREAD ->
  (forall j, 1 <= j < FCTR_AVAILABLE_SECTORS -> j <> k ->
     (rd t1 j =? stat_byte FCTR_SECTOR_UNREAD) = (rd t j =? stat_byte FCTR_SECTOR_UNREAD)) ->
  exists before after,
    waiting_indices t = before ++ after /\
    waiting_indices (wr t1 k (stat_byte FCTR_SECTOR_UNREAD)) = before ++ k :: after /\
    ~ In k before /\ ~ In k after.
Proof.
  intros Hlen Hk Hne Hsame.
  exists (List.filter (fun j => rd t j =? stat_byte FCTR_SECTOR_UNREAD) (seqZ 1 (k - 1))),
         (List.filter (fun j => rd t j =? stat_byte FCTR_SECTOR_UNREAD)
            (seqZ (k + 1) (FCTR_AVAILABLE_SECTORS - 1 - k))).
  split; [|split; [|split]].
  - rewrite (waiting_split t k Hk).
    destruct (Z.eqb_spec (rd t k) (stat_byte FCTR_SECTOR_UNREAD)); [contradiction | reflexivity].
  - rewrite (waiting_split (wr t1 k _) k Hk).
    rewrite rd_wr_same by lia. rewrite Z.eqb_refl.
    rewrite !(waiting_side t (wr t1 k _) k)
      by (try lia; intros j Hj Hjk; rewrite rd_wr_other by lia; apply Hsame; lia).
    reflexivity.
  - intros Hin. apply List.filter_In in Hin as [Hin _]. apply in_seqZ in Hin. lia.
  - intros Hin. apply List.filter_In in Hin as [Hin _]. apply in_seqZ in Hin. lia.
Qed.

Lemma map_put_other m k x l : ~ In k l -> map (put m k x) l = map m l.
Proof.
  intros Hk. apply map_ext_in. intros j Hj. unfold put.
  destruct (Z.eqb_spec j k) as [->|_]; [contradiction | reflexivity].
Qed.

Lemma waiting_none t :
  (forall i, 1 <= i < FCTR_AVAILABLE_SECTORS -> rd t i <> stat_byte FCTR_SECTOR_UNREAD) ->
  waiting_indices t = [].
Proof.
  intros Hnone. apply filter_none. intros j Hj. apply in_seqZ in Hj.
  apply Z.eqb_neq. apply Hnone. lia.
Qed.

(** A push either finds the mirror full, or allocates a sector [k] in a
    table [t1] in front of a chip [d1]: the state as it was, or the state
    compaction left. *)
Lemma push_allocation x s :
  well_sized s ->
  (all_usable FCTR_SECTOR_UNREAD (fctrStatusBytes s) /\
   fctr_pushToFlash x s = (FCTRSTAT_ERROR, s)) \/
  (exists k t1 d1,
     1 <= k < FCTR_AVAILABLE_SECTORS /\
     rd (fctrStatusBytes s) k <> stat_byte FCTR_SECTOR_UNREAD /\
     rd t1 k = stat_byte FCTR_SECTOR_EMPTY /\
     (forall j, 1 <= j < FCTR_AVAILABLE_SECTORS -> j <> k ->
        (rd t1 j =? stat_byte FCTR_SECTOR_UNREAD)
        = (rd (fctrStatusBytes s) j =? stat_byte FCTR_SECTOR_UNREAD)) /\
     (mkState t1 d1 = s \/
      mkState t1 d1 = mkState (compacted (fctrStatusBytes s))
                        (persisted (compacted (fctrStatusBytes s)) (flash s))) /\
     fctr_pushToFlash x s =
       ((if read_back k (marked FCTR_SECTOR_UNREAD k (programmed x k d1))
            =? stat_byte FCTR_SECTOR_UNREAD
         then FCTRSTAT_OK else FCTRSTAT_ERROR),
        mkState (wr t1 k (stat_byte FCTR_SECTOR_UNREAD))
                (marked FCTR_SECTOR_UNREAD k (programmed x k d1)))).
Proof.
  intros Hlen. pose proof Hlen as Hlen'. unfold well_sized in Hlen'.
  assert (Hit := iterations_from 1 ltac:(rewrite available_sectors_value; lia)).
  destruct (scan_loop (stat_byte FCTR_SECTOR_EMPTY) (fctrStatusBytes s) 1 (iterations 1))
    as [k|] eqn:E.
  - right. exists k, (fctrStatusBytes s), (flash s).
    rewrite (pushToFlash_eq x s k (findSectorToWrite_found RESET s k E)).
    apply scan_loop_found in E as (Hk & Hc & _).
    split; [lia | split; [rewrite Hc; discriminate | split; [exact Hc | split]]].
    + intros j _ _. reflexivity.
    + split; [left; destruct s; reflexivity | reflexivity].
  - assert (Hnone : forall j, 1 <= j < FCTR_AVAILABLE_SECTORS ->
              rd (fctrStatusBytes s) j <> stat_byte FCTR_SECTOR_EMPTY).
    { intros j Hj. apply (proj1 (scan_loop_none _ _ _ _) E j). lia. }
    destruct (first_other_than (stat_byte FCTR_SECTOR_UNREAD) (fctrStatusBytes s)
                (iterations 1) 1) as [Hall|(k & Hk & Hne & Hmin)].
    + left. assert (Hall' : all_usable FCTR_SECTOR_UNREAD (fctrStatusBytes s))
        by (intros j Hj; apply Hall; lia).
      split; [exact Hall'|]. apply pushToFlash_no_space.
      apply findSectorToWrite_full; assumption.
    + right. exists k, (compacted (fctrStatusBytes s)),
        (persisted (compacted (fctrStatusBytes s)) (flash s)).
      rewrite (pushToFlash_after_find x s k _
                 (findSectorToWrite_compacts RESET s k Hlen Hnone ltac:(lia) Hne Hmin)).
      cbn [fctrStatusBytes flash].
      split; [lia | split; [exact Hne | split; [|split]]].
      * rewrite compacted_rd by (exact Hlen' || lia).
        destruct (Z.eqb_spec (rd (fctrStatusBytes s) k) (stat_byte FCTR_SECTOR_UNREAD));
          [contradiction | reflexivity].
      * intros j Hj _. rewrite compacted_rd by assumption.
        destruct (rd (fctrStatusBytes s) j =? stat_byte FCTR_SECTOR_UNREAD); reflexivity.
      * split; [right; reflexivity | reflexivity].
Qed.

Hypothesis laws : flash_laws.

(** X18. On a chip that follows the flash laws, from a coherent state, a
    push that succeeds inserts its payload among the pending ones and leaves
    the others as they were, in the same order; the new state is coherent
    and holds them all. *)
Theorem pushToFlash_adds_to_pending m x s :
  well_sized s -> coherent s -> holds m s -> is_payload x ->
  fst (fctr_pushToFlash x s) = FCTRSTAT_OK ->
  exists k before after,
    pending m s = before ++ after /\
    pending (put m k x) (snd (fctr_pushToFlash x s)) = before ++ x :: after /\
    well_sized (snd (fctr_pushToFlash x s)) /\
    coherent (snd (fctr_pushToFlash x s)) /\
    holds (put m k x) (snd (fctr_pushToFlash x s)).
Proof.
  intros Hlen Hcoh Hm Hx Hok.
  destruct (push_allocation x s Hlen)
    as [[_ Hpush]|(k & t1 & d1 & Hk & Hne & Hc & Hsame & Hs1 & Hpush)].
  { rewrite Hpush in Hok. discriminate. }
  assert (Hs1ok : well_sized (mkState t1 d1) /\ coherent (mkState t1 d1)
                  /\ holds m (mkState t1 d1)).
  { destruct Hs1 as [->| ->]; [auto | apply (compacted_state_ok laws); assumption]. }
  destruct Hs1ok as (Hlen1 & Hcoh1 & Hm1).
  destruct (allocate_step laws m x (mkState t1 d1) k Hlen1 Hcoh1 Hm1 Hx Hk Hc)
    as (_ & Hlen2 & Hcoh2 & Hm2).
  cbn [fctrStatusBytes flash] in *.
  destruct (waiting_after_allocate (fctrStatusBytes s) t1 k Hlen1 Hk Hne Hsame)
    as (before & after & Hb & Ha & Hnb & Hna).
  rewrite Hpush. cbn [snd].
  exists k, (map m before), (map m after).
  split; [|split; [|auto]].
  - unfold pending. rewrite Hb. apply map_app.
  - unfold pending. cbn [fctrStatusBytes]. rewrite Ha, map_app. cbn [map].
    rewrite !map_put_other by assumption. unfold put. rewrite Z.eqb_refl. reflexivity.
Qed.

(** X19. On a chip that follows the flash laws, from a coherent state, a pop
    with a sector-sized buffer fails and changes nothing when no payload is
    pending; otherwise it succeeds, the buffer holds the first pending
    payload, and the payloads pending afterwards are the remaining ones, in
    the same order. *)
Theorem popFromFlash_takes_first_pending m buf s :
  well_sized s -> coherent s -> holds m s ->
  Z.of_nat (length buf) = FCTR_SECTOR_SIZE ->
  (pending m s = [] -> fctr_popFromFlash buf s = ((FCTRSTAT_ERROR, buf), s)) /\
  (forall p rest, pending m s = p :: rest ->
     fst (fctr_popFromFlash buf s) = (FCTRSTAT_OK, p) /\
     pending m (snd (fctr_popFromFlash buf s)) = rest /\
     well_sized (snd (fctr_popFromFlash buf s)) /\
     coherent (snd (fctr_popFromFlash buf s)) /\
     holds m (snd (fctr_popFromFlash buf s))).
Proof.
  intros Hlen Hcoh Hm Hbuf. pose proof Hlen as Hlen'. unfold well_sized in Hlen'.
  assert (Hit := iterations_from 1 ltac:(rewrite available_sectors_value; lia)).
  destruct (scan_loop (stat_byte FCTR_SECTOR_UNREAD) (fctrStatusBytes s) 1 (iterations 1))
    as [k|] eqn:E.
  - apply scan_loop_found in E as (Hk & Hu & Hmin).
    assert (Hk' : 1 <= k < FCTR_AVAILABLE_SECTORS) by lia.
    assert (Hw := waiting_after_pop (fctrStatusBytes s) k Hlen' Hk' Hu Hmin).
    destruct (pop_step laws m buf s k Hlen Hcoh Hm Hbuf Hk' Hu Hmin)
      as (Hpop & Hlen1 & Hcoh1 & Hm1).
    unfold pending. rewrite Hw, Hpop. cbn [map fst snd fctrStatusBytes].
    split; [discriminate|].
    intros p rest Hp. injection Hp as <- <-. auto.
  - assert (Hnone : forall i, 1 <= i < FCTR_AVAILABLE_SECTORS ->
              rd (fctrStatusBytes s) i <> stat_byte FCTR_SECTOR_UNREAD).
    { intros j Hj. apply (proj1 (scan_loop_none _ _ _ _) E j). lia. }
    unfold pending. rewrite (waiting_none _ Hnone). cbn [map].
    split; [|discriminate].
    intros _. unfold fctr_popFromFlash, bind.
    rewrite (findSectorToRead_none RESET s E). reflexivity.
Qed.


End Pending.

(** ** Initialisation on a chip that follows the flash laws *)

Section Boot.

Context {dev : Type} `{IC : FlashIC dev}.

Implicit Types (s : fctr_state dev) (t : list Z) (d : dev).

Hypothesis laws : flash_laws.

Lemma take_blit_whole (bytes t : list Z) (n : nat) :
  length bytes = n -> take n (blit bytes t) = bytes.
Proof.
  intros <-. unfold blit. rewrite take_app_le by lia. apply take_ge. lia.
Qed.

(** What [fctr_firstInit] loads is the map sector of the chip. *)
Lemma loaded_is_map d t : loaded d t = map_on_chip d.
Proof.
  unfold loaded. fold (map_on_chip d). apply take_blit_whole.
  destruct (map_reads_status laws d) as [Hlen _]. lia.
Qed.

(** A map sector that agrees with a table of N entries reads as that table. *)
Lemma map_of_coherent d t :
  Z.of_nat (length t) = FCTR_AVAILABLE_SECTORS ->
  (forall k, 0 <= k < FCTR_AVAILABLE_SECTORS -> read_back k d = rd t k) ->
  map_on_chip d = t.
Proof.
  intros Hlen Hcoh. destruct (map_reads_status laws d) as [Hmlen Hmrd].
  apply rd_ext; [lia|]. intros i Hi. rewrite Hmrd by lia. apply Hcoh. lia.
Qed.

(** X16. On a chip that follows the flash laws, once the bring-up and the
    capacity check pass and the chip carries the signature in byte 0 of the
    map sector, [fctr_firstInit] succeeds without formatting and leaves a
    mirror of N entries that carries the signature and agrees with the
    status bytes on the chip. *)
Theorem firstInit_gives_coherent_state s :
  fst (W25qxx_Init (flash s)) = true ->
  FCTR_SIZE_OF_KILOBYTE <= CapacityInKiloByte (snd (W25qxx_Init (flash s))) ->
  read_back 0 (snd (W25qxx_Init (flash s))) = SIGNATURE_BYTE ->
  fst (fctr_firstInit s) = FCTRSTAT_OK /\
  flash (snd (fctr_firstInit s)) = snd (W25qxx_Init (flash s)) /\
  well_sized (snd (fctr_firstInit s)) /\
  coherent (snd (fctr_firstInit s)) /\
  rd (fctrStatusBytes (snd (fctr_firstInit s))) 0 = SIGNATURE_BYTE.
Proof.
  intros Hok Hcap Hchip. rewrite (firstInit_eq s Hok Hcap). cbv zeta.
  set (d1 := snd (W25qxx_Init (flash s))) in *.
  rewrite loaded_is_map.
  destruct (map_reads_status laws d1) as [Hlen Hrd].
  assert (Hsig : rd (map_on_chip d1) 0 = SIGNATURE_BYTE).
  { rewrite Hrd by (rewrite available_sectors_value; lia). exact Hchip. }
  rewrite Hsig, Z.eqb_refl. cbn [fst snd flash fctrStatusBytes].
  split; [reflexivity | split; [reflexivity | split; [exact Hlen | split; [|exact Hsig]]]].
  intros k Hk. cbn [flash fctrStatusBytes]. symmetry. apply Hrd. exact Hk.
Qed.

(** X17. A restart recovers the table.  If the mirror agreed with the chip and
    carried the signature, [fctr_firstInit] run on the same chip with any
    mirror contents succeeds without formatting and rebuilds that very
    mirror. *)
Theorem firstInit_recovers_table t0 s :
  fst (W25qxx_Init (flash s)) = true ->
  FCTR_SIZE_OF_KILOBYTE <= CapacityInKiloByte (snd (W25qxx_Init (flash s))) ->
  well_sized s -> coherent s ->
  rd (fctrStatusBytes s) 0 = SIGNATURE_BYTE ->
  fctr_firstInit (mkState t0 (flash s)) =
    (FCTRSTAT_OK, mkState (fctrStatusBytes s) (snd (W25qxx_Init (flash s)))).
Proof.
  intros Hok Hcap Hlen Hcoh Hsig.
  rewrite (firstInit_eq (mkState t0 (flash s)) Hok Hcap). cbv zeta.
  cbn [flash fctrStatusBytes]. rewrite loaded_is_map.
  rewrite (map_of_coherent _ (fctrStatusBytes s) Hlen).
  - rewrite Hsig, Z.eqb_refl. reflexivity.
  - intros k Hk. rewrite (init_keeps_status laws) by exact Hk. apply Hcoh. exact Hk.
Qed.

End Boot.

(** ** The NOR array follows the flash laws *)

Section NorLaws.

Implicit Types (d : nor) (x t : list Z).

Local Ltac on_nor :=
  cbv beta iota zeta delta
    [programmed marked persisted read_back sector_on_chip map_on_chip
     fctr_writeSector fctr_writeSectorStatus
     bind ret on_chip ask_chip fst snd fctrStatusBytes flash
     W25qxx_IsEmptySector W25qxx_WriteSector W25qxx_EraseSector
     W25qxx_WriteByte W25qxx_ReadByte W25qxx_ReadSector W25qxx_Init nor_IC].

Lemma status_address k :
  0 <= k < FCTR_AVAILABLE_SECTORS ->
  wrap32 (FCTR_RESERVED_OFFSET + k) = 1048576 + k.
Proof.
  intros Hk. unfold wrap32, FCTR_RESERVED_OFFSET.
  rewrite available_sectors_value in Hk. apply Z.mod_small. lia.
Qed.

Lemma nor_read_back k d :
  0 <= k < FCTR_AVAILABLE_SECTORS -> read_back k d = cells d (1048576 + k).
Proof. intros Hk. on_nor. rewrite (status_address k Hk). reflexivity. Qed.

Lemma nor_sector_on_chip k d :
  1 <= k < FCTR_AVAILABLE_SECTORS ->
  sector_on_chip k d = nor_read (256 + k) 0 4096 d.
Proof. intros Hk. on_nor. rewrite (data_sector_number k Hk). reflexivity. Qed.

(** Two chips with the same bytes in a sector read the same sector. *)
Lemma nor_read_same sector d d' :
  (forall a, nor_base sector 0 <= a < nor_base sector 4096 -> cells d' a = cells d a) ->
  nor_read sector 0 4096 d' = nor_read sector 0 4096 d.
Proof.
  intros H. unfold nor_read. apply map_ext_in. intros i Hi.
  apply in_seq in Hi. apply H. unfold nor_base. lia.
Qed.

Lemma nor_persisted_cells t d a :
  cells (persisted t d) a =
    if (1048576 <=? a) && (a <? 1048576 + 1792)
    then Z.land 0xFF (rd t (a - 1048576))
    else if (1048576 <=? a) && (a <? 1052672) then 0xFF else cells d a.
Proof.
  on_nor. rewrite map_sector_value, available_sectors_value.
  cbv beta iota delta [nor_program nor_erase with_cells cells nor_base].
  change (256 * 4096 + 0) with 1048576. change (256 * 4096 + 4096) with 1052672.
  destruct ((1048576 <=? a) && (a <? 1048576 + 1792)) eqn:E; [|reflexivity].
  replace ((1048576 <=? a) && (a <? 1052672)) with true; [reflexivity|].
  symmetry. apply andb_true_iff in E as [E1 E2].
  apply andb_true_iff. split; [exact E1|].
  apply Z.ltb_lt in E2. apply Z.ltb_lt. lia.
Qed.

Lemma nth_map_seq (f : nat -> Z) : forall n a i,
  (i < n)%nat -> nth i (map f (seq a n)) 0 = f (a + i)%nat.
Proof.
  induction n as [|n IH]; intros a i Hi; [lia|].
  cbn [seq map]. destruct i as [|i].
  - cbn [nth]. rewrite Nat.add_0_r. reflexivity.
  - cbn [nth]. rewrite IH by lia. f_equal. lia.
Qed.

Lemma nor_flash_laws : flash_laws (dev := nor).
Proof.
  assert (HN := available_sectors_value).
  split.
  - (* byte_programs *)
    intros d c k Hk. rewrite !nor_read_back by lia.
    rewrite nor_marked_cells, (status_address k) by lia.
    rewrite Z.eqb_refl. reflexivity.
  - (* byte_elsewhere *)
    intros d c k j Hk Hj Hjk. rewrite !nor_read_back by lia.
    rewrite nor_marked_cells, (status_address k) by lia.
    destruct (Z.eqb_spec (1048576 + j) (1048576 + k)); [lia | reflexivity].
  - (* data_keeps_status *)
    intros d x k j Hk Hj. rewrite !nor_read_back by lia.
    apply nor_programmed_elsewhere; [exact Hk|]. unfold nor_base. lia.
  - (* persist_sets_status *)
    intros d t k Hlen Hk Hb. rewrite nor_read_back by lia.
    rewrite nor_persisted_cells.
    replace ((1048576 <=? 1048576 + k) && (1048576 + k <? 1048576 + 1792)) with true
      by (symmetry; apply andb_true_iff; split; [apply Z.leb_le | apply Z.ltb_lt]; lia).
    replace (1048576 + k - 1048576) with k by lia.
    apply land_erased. exact Hb.
  - (* data_programs *)
    intros d x k Hk [Hlen Hbytes]. rewrite nor_sector_on_chip by exact Hk.
    unfold nor_read. unfold FCTR_SECTOR_SIZE in Hlen.
    replace (Z.to_nat 4096) with (length x) by lia.
    apply map_seq_is. intros i Hi. cbn [Nat.add].
    assert (Hnth : rd x (Z.of_nat i) = nth i x 0).
    { unfold rd. rewrite Nat2Z.id. symmetry. apply nth_lookup. }
    rewrite nor_programmed_here; [exact Hnth | exact Hk | lia |].
    rewrite Hnth. apply Forall_nth; [exact Hbytes | exact Hi].
  - (* data_elsewhere *)
    intros d x k j Hk Hj Hjk. rewrite !nor_sector_on_chip by assumption.
    apply nor_read_same. intros a Ha.
    apply nor_programmed_elsewhere; [exact Hk|]. unfold nor_base in *. lia.
  - (* byte_keeps_data *)
    intros d c k j Hk Hj. rewrite !nor_sector_on_chip by assumption.
    apply nor_read_same. intros a Ha.
    rewrite nor_marked_cells, (status_address k) by lia.
    destruct (Z.eqb_spec a (1048576 + k)); [unfold nor_base in *; lia | reflexivity].
  - (* persist_keeps_data *)
    intros d t j Hj. rewrite !nor_sector_on_chip by assumption.
    apply nor_read_same. intros a Ha. rewrite nor_persisted_cells.
    unfold nor_base in Ha.
    replace ((1048576 <=? a) && (a <? 1048576 + 1792)) with false
      by (symmetry; apply andb_false_iff; right; apply Z.ltb_ge; lia).
    replace ((1048576 <=? a) && (a <? 1052672)) with false
      by (symmetry; apply andb_false_iff; right; apply Z.ltb_ge; lia).
    reflexivity.
  - (* map_reads_status *)
    intros d. on_nor. rewrite map_sector_value, HN. unfold nor_read. split.
    + rewrite length_map, length_seq. lia.
    + intros k Hk. rewrite (status_address k) by lia.
      unfold rd. rewrite <- nth_lookup. rewrite nth_map_seq by lia.
      unfold nor_base. f_equal. lia.
  - (* map_reads_prefix *)
    intros d. on_nor. rewrite map_sector_value, HN. unfold nor_read, FCTR_SECTOR_SIZE.
    rewrite firstn_map. change (firstn ?n ?l) with (take n l).
    rewrite take_seq.
    replace (Z.to_nat 1792 `min` Z.to_nat 4096)%nat with (Z.to_nat 1792) by lia.
    reflexivity.
  - (* init_keeps_status *)
    intros d k Hk. reflexivity.
Qed.

(** A chip built to mirror a table agrees with it, and its data sectors
    hold the filling byte. *)
Lemma nor_mirroring_coherent t fill : coherent (mkState t (nor_mirroring t fill)).
Proof.
  intros k Hk. cbn [flash fctrStatusBytes]. rewrite nor_read_back by exact Hk.
  rewrite available_sectors_value in Hk.
  cbv beta iota delta [nor_mirroring cells].
  replace (1048576 + k <? 1052672) with true by (symmetry; apply Z.ltb_lt; lia).
  f_equal. lia.
Qed.

Lemma nor_mirroring_sector t fill k :
  1 <= k < FCTR_AVAILABLE_SECTORS ->
  sector_on_chip k (nor_mirroring t fill) = replicate 4096 fill.
Proof.
  intros Hk. rewrite nor_sector_on_chip by exact Hk. unfold nor_read.
  replace (Z.to_nat 4096) with (length (replicate 4096 fill))
    by (rewrite length_replicate; reflexivity).
  apply map_seq_is. intros i Hi. rewrite length_replicate in Hi.
  cbv beta iota delta [nor_mirroring cells].
  replace (nor_base (256 + k) 0 + Z.of_nat (0 + i) <? 1052672) with false
    by (symmetry; apply Z.ltb_ge; unfold nor_base; lia).
  rewrite nth_lookup, lookup_replicate_2 by lia. reflexivity.
Qed.

Lemma is_payload_replicate b : is_byte b -> is_payload (replicate 4096 b).
Proof.
  intros Hb. split; [rewrite length_replicate; reflexivity|].
  apply Forall_replicate. exact Hb.
Qed.

Lemma formatted_state_holds m : holds m formatted_state.
Proof.
  intros k Hk Hu. cbn [formatted_state fctrStatusBytes] in Hu.
  rewrite (formatted_table_usable k Hk) in Hu. discriminate.
Qed.

Lemma queued_table_rd k :
  1 <= k < FCTR_AVAILABLE_SECTORS ->
  rd queued_table k =
    if k =? 1 then stat_byte FCTR_SECTOR_READ else stat_byte FCTR_SECTOR_UNREAD.
Proof.
  intros Hk. unfold queued_table.
  assert (Hlen := length_uniform_table FCTR_SECTOR_UNREAD).
  destruct (Z.eqb_spec k 1) as [->|Hk1].
  - apply rd_wr_same. lia.
  - rewrite rd_wr_other by lia. apply uniform_table_usable. exact Hk.
Qed.

Lemma queued_state_holds : holds (fun _ => waiting) queued_state.
Proof.
  intros k Hk _. cbn [queued_state flash]. split.
  - apply nor_mirroring_sector. exact Hk.
  - apply is_payload_replicate. unfold is_byte. lia.
Qed.

End NorLaws.

(** ** The further properties on concrete states *)

Lemma popFromFlash_no_data_witness :
  fctr_popFromFlash (replicate 4096 0) fresh_state
  = ((FCTRSTAT_ERROR, replicate 4096 0), fresh_state).
Proof.
  apply (popFromFlash_no_data (replicate 4096 0) fresh_state).
  intros i Hi. cbn [fresh_state fctrStatusBytes].
  rewrite (formatted_table_usable i Hi). discriminate.
Defined.

Lemma popFromFlash_first_unread_witness :
  fctrStatusBytes (snd (fctr_popFromFlash (replicate 4096 0) one_unread_state))
  = wr (fctrStatusBytes one_unread_state) 1 (stat_byte FCTR_SECTOR_READ).
Proof.
  refine (proj1 (proj2 (proj2
    (popFromFlash_first_unread (replicate 4096 0) one_unread_state 1 _ _ _)))).
  - vm_compute. split; [discriminate | reflexivity].
  - vm_compute. reflexivity.
  - intros j Hj. lia.
Defined.

Lemma pushToFlash_full_witness :
  fctr_pushToFlash (replicate 4096 0xA5) all_unread_state
  = (FCTRSTAT_ERROR, all_unread_state).
Proof.
  apply (pushToFlash_full (replicate 4096 0xA5) all_unread_state).
  - apply length_uniform_table.
  - apply uniform_table_usable.
Defined.

Lemma pushToFlash_first_empty_witness :
  flash (snd (fctr_pushToFlash (replicate 4096 0xA5) fresh_recorded))
  = [CallWriteByte 0x5E 1048577;
     CallWriteSector (replicate 4096 0xA5) 257 0 4096;
     CallErase 257].
Proof.
  refine (proj2 (proj2
    (pushToFlash_first_empty (replicate 4096 0xA5) fresh_recorded 1 _ _ _))).
  - vm_compute. split; [discriminate | reflexivity].
  - vm_compute. reflexivity.
  - intros j Hj. lia.
Defined.

Lemma pushToFlash_compacts_witness :
  flash (snd (fctr_pushToFlash (replicate 4096 0xA5) all_read_recorded))
  = [CallWriteByte 0x5E 1048577;
     CallWriteSector (replicate 4096 0xA5) 257 0 4096;
     CallErase 257;
     CallWriteSector (compacted (fctrStatusBytes all_read_recorded)) 256 0 1792;
     CallErase 256].
Proof.
  refine (proj1 (proj2
    (pushToFlash_compacts (replicate 4096 0xA5) all_read_recorded 1 _ _ _ _ _))).
  - apply length_uniform_table.
  - intros j Hj. cbn [all_read_recorded fctrStatusBytes].
    rewrite (uniform_table_usable FCTR_SECTOR_READ j Hj). discriminate.
  - vm_compute. split; [discriminate | reflexivity].
  - vm_compute. discriminate.
  - intros j Hj. lia.
Defined.

Lemma pushToFlash_spares_unread_witness :
  (forall i, 1 <= i < FCTR_AVAILABLE_SECTORS ->
     rd (fctrStatusBytes one_unread_recorded) i = stat_byte FCTR_SECTOR_UNREAD ->
     rd (fctrStatusBytes (snd (fctr_pushToFlash (replicate 4096 0xA5) one_unread_recorded))) i
       = stat_byte FCTR_SECTOR_UNREAD) /\
  (snd (fctr_pushToFlash (replicate 4096 0xA5) one_unread_recorded) = one_unread_recorded \/
   exists k, 1 <= k < FCTR_AVAILABLE_SECTORS /\
     rd (fctrStatusBytes one_unread_recorded) k <> stat_byte FCTR_SECTOR_UNREAD /\
     (flash (snd (fctr_pushToFlash (replicate 4096 0xA5) one_unread_recorded))
        = marked FCTR_SECTOR_UNREAD k
            (programmed (replicate 4096 0xA5) k (flash one_unread_recorded)) \/
      flash (snd (fctr_pushToFlash (replicate 4096 0xA5) one_unread_recorded))
        = marked FCTR_SECTOR_UNREAD k
            (programmed (replicate 4096 0xA5) k
               (persisted (compacted (fctrStatusBytes one_unread_recorded))
                  (flash one_unread_recorded))))).
Proof.
  apply (pushToFlash_spares_unread (replicate 4096 0xA5) one_unread_recorded).
  vm_compute. reflexivity.
Defined.

Lemma push_pop_keep_signature_witness :
  rd (fctrStatusBytes (snd (fctr_pushToFlash (replicate 4096 0xA5) all_read_state))) 0
    = SIGNATURE_BYTE /\
  rd (fctrStatusBytes (snd (fctr_popFromFlash (replicate 4096 0) all_read_state))) 0
    = SIGNATURE_BYTE.
Proof.
  assert (Hsize : well_sized all_read_state) by (vm_compute; reflexivity).
  assert (Hsig : rd (fctrStatusBytes all_read_state) 0 = SIGNATURE_BYTE) by reflexivity.
  destruct (push_pop_keep_signature (replicate 4096 0xA5) (replicate 4096 0)
              all_read_state Hsize Hsig) as [[_ Hpush] [_ Hpop]].
  split; assumption.
Defined.

Lemma firstInit_keeps_formatted_media_witness :
  fctr_firstInit formatted_state =
    (FCTRSTAT_OK,
     mkState (loaded (snd (W25qxx_Init (flash formatted_state)))
                (fctrStatusBytes formatted_state))
             (snd (W25qxx_Init (flash formatted_state)))).
Proof.
  apply (firstInit_keeps_formatted_media formatted_state).
  - reflexivity.
  - vm_compute. discriminate.
  - vm_compute. reflexivity.
Defined.

Lemma firstInit_failure_leaves_mirror_witness :
  snd (fctr_firstInit dead_state) = dead_state.
Proof.
  refine (firstInit_failure_leaves_mirror dead_state _).
  reflexivity.
Defined.

Lemma formatTheMemorySpace_idempotent_witness :
  fctr_formatTheMemorySpace boot_recorded =
    (FCTRSTAT_OK,
     mkState formatted_table
       [CallWriteSector formatted_table 256 0 1792; CallErase 256]).
Proof.
  refine (proj1 (formatTheMemorySpace_idempotent boot_recorded _)).
  vm_compute. reflexivity.
Defined.

Lemma format_then_pop_or_push_witness :
  fctr_popFromFlash (replicate 4096 0) (snd (fctr_formatTheMemorySpace boot_recorded))
    = ((FCTRSTAT_ERROR, replicate 4096 0), snd (fctr_formatTheMemorySpace boot_recorded)) /\
  snd (fctr_pushToFlash (replicate 4096 0xA5) (snd (fctr_formatTheMemorySpace boot_recorded)))
    = mkState (wr formatted_table 1 (stat_byte FCTR_SECTOR_UNREAD))
        [CallWriteByte 0x5E 1048577;
         CallWriteSector (replicate 4096 0xA5) 257 0 4096;
         CallErase 257;
         CallWriteSector formatted_table 256 0 1792;
         CallErase 256].
Proof.
  refine (format_then_pop_or_push (replicate 4096 0xA5) (replicate 4096 0)
            boot_recorded _).
  vm_compute. reflexivity.
Defined.



Lemma two_pushes_pop_in_order_witness :
  fst (fctr_popFromFlash (replicate 4096 0)
         (snd (fctr_pushToFlash (replicate 4096 0x22)
                 (snd (fctr_pushToFlash (replicate 4096 0x11) formatted_state)))))
  = (FCTRSTAT_OK, replicate 4096 0x11).
Proof.
  refine (proj1 (proj2 (proj2
    (two_pushes_pop_in_order nor_flash_laws (replicate 4096 0x11) (replicate 4096 0x22)
       (replicate 4096 0) formatted_state _ _ _ _ _ _)))).
  - apply length_formatted_table.
  - apply nor_mirroring_coherent.
  - apply formatted_table_usable.
  - apply is_payload_replicate. unfold is_byte. lia.
  - apply is_payload_replicate. unfold is_byte. lia.
  - rewrite length_replicate. reflexivity.
Defined.

Lemma push_after_compaction_witness :
  fst (fctr_popFromFlash (replicate 4096 0)
         (snd (fctr_pushToFlash (replicate 4096 0x22) queued_state)))
  = (FCTRSTAT_OK, replicate 4096 0x22).
Proof.
  refine (proj1 (proj2
    (push_after_compaction_is_popped_first nor_flash_laws (fun _ => waiting)
       (replicate 4096 0x22) (replicate 4096 0) queued_state _ _ _ _ _ _))).
  - vm_compute. reflexivity.
  - apply queued_state_holds.
  - intros j Hj. cbn [queued_state fctrStatusBytes]. rewrite (queued_table_rd j Hj).
    destruct (j =? 1); discriminate.
  - vm_compute. discriminate.
  - apply is_payload_replicate. unfold is_byte. lia.
  - rewrite length_replicate. reflexivity.
Defined.

Lemma firstInit_gives_coherent_state_witness :
  fst (fctr_firstInit formatted_state) = FCTRSTAT_OK /\
  flash (snd (fctr_firstInit formatted_state)) = snd (W25qxx_Init (flash formatted_state)) /\
  well_sized (snd (fctr_firstInit formatted_state)) /\
  coherent (snd (fctr_firstInit formatted_state)) /\
  rd (fctrStatusBytes (snd (fctr_firstInit formatted_state))) 0 = SIGNATURE_BYTE.
Proof.
  apply (firstInit_gives_coherent_state nor_flash_laws formatted_state).
  - reflexivity.
  - vm_compute. discriminate.
  - vm_compute. reflexivity.
Defined.

Lemma firstInit_recovers_table_witness :
  fctr_firstInit (mkState (replicate 1792 0) (flash queued_state))
  = (FCTRSTAT_OK,
     mkState (fctrStatusBytes queued_state) (snd (W25qxx_Init (flash queued_state)))).
Proof.
  apply (firstInit_recovers_table nor_flash_laws (replicate 1792 0) queued_state).
  - reflexivity.
  - vm_compute. discriminate.
  - vm_compute. reflexivity.
  - apply nor_mirroring_coherent.
  - reflexivity.
Defined.

Lemma pushToFlash_adds_to_pending_witness :
  exists k before after,
    pending (fun _ => []) formatted_state = before ++ after /\
    pending (put (fun _ => []) k (replicate 4096 0xA5))
      (snd (fctr_pushToFlash (replicate 4096 0xA5) formatted_state))
      = before ++ replicate 4096 0xA5 :: after /\
    well_sized (snd (fctr_pushToFlash (replicate 4096 0xA5) formatted_state)) /\
    coherent (snd (fctr_pushToFlash (replicate 4096 0xA5) formatted_state)) /\
    holds (put (fun _ => []) k (replicate 4096 0xA5))
      (snd (fctr_pushToFlash (replicate 4096 0xA5) formatted_state)).
Proof.
  apply (pushToFlash_adds_to_pending nor_flash_laws (fun _ => [])
           (replicate 4096 0xA5) formatted_state).
  - apply length_formatted_table.
  - apply nor_mirroring_coherent.
  - apply formatted_state_holds.
  - apply is_payload_replicate. unfold is_byte. lia.
  - vm_compute. reflexivity.
Defined.

Lemma popFromFlash_takes_first_pending_witness :
  fst (fctr_popFromFlash (replicate 4096 0) queued_state) = (FCTRSTAT_OK, waiting).
Proof.
  assert (Hpending : pending (fun _ => waiting) queued_state
                     = waiting :: map (fun _ => waiting)
                         (waiting_indices (wr queued_table 2 (stat_byte FCTR_SECTOR_READ)))).
  { unfold pending. cbn [queued_state fctrStatusBytes].
    rewrite (waiting_after_pop queued_table 2).
    - reflexivity.
    - vm_compute. reflexivity.
    - vm_compute. split; [discriminate | reflexivity].
    - vm_compute. reflexivity.
    - intros j Hj. assert (j = 1) as -> by lia. vm_compute. discriminate. }
  refine (proj1 (proj2 (popFromFlash_takes_first_pending nor_flash_laws (fun _ => waiting)
                          (replicate 4096 0) queued_state _ _ _ _) _ _ Hpending)).
  - vm_compute. reflexivity.
  - apply nor_mirroring_coherent.
  - apply queued_state_holds.
  - rewrite length_replicate. reflexivity.
Defined.


(** C8.  The claim fails on the code by a slip: on a first boot (zeroed
    mirror, erased chip, so no signature) [fctr_firstInit] formats, then
    reloads the table with [fctr_readSector], which copies a whole sector of
    [FCTR_SECTOR_SIZE] = 4096 bytes through the pointer to the mirror of
    [FCTR_AVAILABLE_SECTORS] = 1792 bytes.  The memory written is 4096 bytes
    long: its first 1792 bytes are the formatted table, and 2304 bytes past
    the end of the array have been overwritten with what the rest of the map
    sector holds. *)
Lemma firstInit_reformat_overruns_mirror :
  rd (loaded (snd (W25qxx_Init (flash boot_state))) (fctrStatusBytes boot_state)) 0
    <> SIGNATURE_BYTE /\
  Z.of_nat (length (fctrStatusBytes (snd (fctr_firstInit boot_state)))) = FCTR_SECTOR_SIZE /\
  ~ well_sized (snd (fctr_firstInit boot_state)) /\
  take (Z.to_nat FCTR_AVAILABLE_SECTORS) (fctrStatusBytes (snd (fctr_firstInit boot_state)))
    = formatted_table /\
  drop (Z.to_nat FCTR_AVAILABLE_SECTORS) (fctrStatusBytes (snd (fctr_firstInit boot_state)))
    = replicate 2304 0xFF.
Proof.
  split; [vm_compute; discriminate |].
  split; [vm_compute; reflexivity |].
  split; [vm_compute; discriminate |].
  split; vm_compute; reflexivity.
Qed.
